(** * Strudy: command-line entry point and issue-filing script

    A shallow embedding of [strudy.js] (option validation, report location,
    content sniffing, dispatch to the analysis and report generators) and of
    the issue-filing script (selection of specifications, filtering of broken
    links, issue text, file and git effects), with the properties of the
    natural-language specification that concern them. *)

From Stdlib Require Import Strings.Byte Strings.Ascii Strings.String.
From stdpp Require Import gmap strings list.

Open Scope N_scope.

(** ** Text decoding: [Buffer.prototype.toString()]

    [buff.toString()] decodes the bytes as UTF-8 into a JavaScript string, a
    sequence of UTF-16 code units.  Ill-formed input is replaced by U+FFFD,
    one replacement per maximal ill-formed prefix.  Bytes and code units are
    both numbers in [N]. *)

Definition in_range (lo hi b : N) : bool := (lo <=? b) && (b <=? hi).

Definition is_cont (b : N) : bool := in_range 0x80 0xBF b.

Definition REPLACEMENT : N := 0xFFFD.

(** Bounds on the second byte of a three-byte and of a four-byte sequence. *)
Definition second_lo3 (b0 : N) : N := if b0 =? 0xE0 then 0xA0 else 0x80.
Definition second_hi3 (b0 : N) : N := if b0 =? 0xED then 0x9F else 0xBF.
Definition second_lo4 (b0 : N) : N := if b0 =? 0xF0 then 0x90 else 0x80.
Definition second_hi4 (b0 : N) : N := if b0 =? 0xF4 then 0x8F else 0xBF.

Definition cp2 (b0 b1 : N) : N := (b0 - 0xC0) * 64 + (b1 - 0x80).
Definition cp3 (b0 b1 b2 : N) : N :=
  (b0 - 0xE0) * 4096 + (b1 - 0x80) * 64 + (b2 - 0x80).
Definition cp4 (b0 b1 b2 b3 : N) : N :=
  (b0 - 0xF0) * 262144 + (b1 - 0x80) * 4096 + (b2 - 0x80) * 64 + (b3 - 0x80).

(** A code point above the basic plane becomes a surrogate pair. *)
Definition surrogates (cp : N) : list N :=
  [0xD800 + (cp - 0x10000) / 1024; 0xDC00 + (cp - 0x10000) mod 1024].

(** [utf8_first bs] decodes the first character of [bs]: the code units it
    yields and the bytes that remain. *)
Definition utf8_first (bs : list N) : option (list N * list N) :=
  match bs with
  | [] => None
  | b0 :: r0 =>
    if b0 <? 0x80 then Some ([b0], r0)
    else if in_range 0xC2 0xDF b0 then
      match r0 with
      | b1 :: r1 =>
        if is_cont b1 then Some ([cp2 b0 b1], r1) else Some ([REPLACEMENT], r0)
      | [] => Some ([REPLACEMENT], r0)
      end
    else if in_range 0xE0 0xEF b0 then
      match r0 with
      | b1 :: r1 =>
        if in_range (second_lo3 b0) (second_hi3 b0) b1 then
          match r1 with
          | b2 :: r2 =>
            if is_cont b2 then Some ([cp3 b0 b1 b2], r2)
            else Some ([REPLACEMENT], r1)
          | [] => Some ([REPLACEMENT], r1)
          end
        else Some ([REPLACEMENT], r0)
      | [] => Some ([REPLACEMENT], r0)
      end
    else if in_range 0xF0 0xF4 b0 then
      match r0 with
      | b1 :: r1 =>
        if in_range (second_lo4 b0) (second_hi4 b0) b1 then
          match r1 with
          | b2 :: r2 =>
            if is_cont b2 then
              match r2 with
              | b3 :: r3 =>
                if is_cont b3 then Some (surrogates (cp4 b0 b1 b2 b3), r3)
                else Some ([REPLACEMENT], r2)
              | [] => Some ([REPLACEMENT], r2)
              end
            else Some ([REPLACEMENT], r1)
          | [] => Some ([REPLACEMENT], r1)
          end
        else Some ([REPLACEMENT], r0)
      | [] => Some ([REPLACEMENT], r0)
      end
    else Some ([REPLACEMENT], r0)
  end.

Fixpoint utf8_decode_fuel (fuel : nat) (bs : list N) : list N :=
  match fuel with
  | O => []
  | S fuel' =>
    match utf8_first bs with
    | None => []
    | Some (cus, rest) => cus ++ utf8_decode_fuel fuel' rest
    end
  end.

(** Every step consumes at least one byte, so the length of the input is
    enough fuel (see [utf8_decode_unfold]). *)
Definition utf8_decode (bs : list N) : list N :=
  utf8_decode_fuel (length bs) bs.

(** The UTF-8 form of a code unit of the basic plane (one to three bytes). *)
Definition utf8_encode1 (c : N) : list N :=
  if c <? 0x80 then [c]
  else if c <? 0x800 then [0xC0 + c / 64; 0x80 + c mod 64]
  else [0xE0 + c / 4096; 0x80 + (c / 64) mod 64; 0x80 + c mod 64].

Definition utf8_encode (w : list N) : list N := w ≫= utf8_encode1.

(** ** The sniffing pattern [/"type"\s*:\s*"study"/] *)

(** The code units matched by [\s] in a JavaScript regular expression. *)
Definition is_ws (c : N) : bool :=
  in_range 0x09 0x0D c || (c =? 0x20) || (c =? 0xA0) || (c =? 0x1680)
  || in_range 0x2000 0x200A c || (c =? 0x2028) || (c =? 0x2029)
  || (c =? 0x202F) || (c =? 0x205F) || (c =? 0x3000) || (c =? 0xFEFF).

Definition code_units (s : string) : list N :=
  Byte.to_N <$> String.list_byte_of_string s.

Definition DQUOTE : N := 0x22.
Definition COLON : N := 0x3A.

(** A matcher answers whether some match of its pattern starts at the head of
    the input; patterns are composed in continuation-passing style, so that
    [\s*] tries the longest run of white space first and gives characters
    back when the rest of the pattern fails. *)
Definition matcher := list N → bool.

Fixpoint re_lit (cs : list N) (k : matcher) (s : list N) : bool :=
  match cs with
  | [] => k s
  | c :: cs' =>
    match s with
    | x :: s' => if x =? c then re_lit cs' k s' else false
    | [] => false
    end
  end.

Fixpoint re_star_ws (k : matcher) (s : list N) : bool :=
  match s with
  | x :: s' =>
    if (if is_ws x then re_star_ws k s' else false) then true else k s
  | [] => k s
  end.

Definition KEY : list N := DQUOTE :: code_units "type" ++ [DQUOTE].
Definition VAL : list N := DQUOTE :: code_units "study" ++ [DQUOTE].

Definition study_re_here : matcher :=
  re_lit KEY (re_star_ws (re_lit [COLON] (re_star_ws (re_lit VAL (λ _, true))))).

(** [str.match(re)] without the [g] and [y] flags: is there a match starting
    at some position of [s]? *)
Fixpoint re_search (m : matcher) (s : list N) : bool :=
  if m s then true
  else match s with
       | _ :: s' => re_search m s'
       | [] => false
       end.

(** ** [isStudyReport] *)

(** The values a JavaScript expression of the two programs may take.  The
    programs only test a number and print it, so a number is held as the text
    [Number.prototype.toString] gives for it ([0] and [-0] both print as
    [0]). *)
#[local] Set Warnings "-register-all".
Inductive JSValue : Type :=
  | JUndefined
  | JNull
  | JBool (b : bool)
  | JNum (text : string)
  | JString (s : string)
  | JArray (items : list JSValue)
  | JObject (props : list (string * JSValue)).

(** [ToBoolean]: arrays and objects are always truthy. *)
Definition truthy (v : JSValue) : bool :=
  match v with
  | JUndefined | JNull => false
  | JBool b => b
  | JNum text => negb (String.eqb text "0" || String.eqb text "NaN")
  | JString s => negb (String.eqb s EmptyString)
  | JArray _ | JObject _ => true
  end.

(** [Buffer.alloc(1024)] followed by [fd.read(buff, 0, 1024)]: the first 1024
    bytes of the file, the rest of the buffer left at zero. *)
Definition SNIFF : nat := 1024.

Definition sniff_buffer (content : list byte) : list N :=
  (Byte.to_N <$> take SNIFF content) ++ replicate (SNIFF - length content) 0.

(** What [fd.read] does on an opened file: it fails (a directory, an I/O
    error) or fills the buffer from the file's content. *)
Inductive ReadOutcome : Type :=
  | ReadFails
  | ReadBytes (content : list byte).

(** [isStudyReport] returns [true] on a match, [false] when reading throws,
    and falls off the end ([undefined]) otherwise. *)
Definition isStudyReport (r : ReadOutcome) : JSValue :=
  match r with
  | ReadFails => JBool false
  | ReadBytes content =>
    if re_search study_re_here (utf8_decode (sniff_buffer content))
    then JBool true
    else JUndefined
  end.

(** ** Strings and paths *)

Definition QUOTE : string := String "034"%char EmptyString.
Definition NL : string := String "010"%char EmptyString.

(** [s.endsWith(suffix)] *)
Fixpoint endsWith (s suffix : string) : bool :=
  String.eqb s suffix ||
  match s with
  | String _ s' => endsWith s' suffix
  | EmptyString => false
  end.

(** A string is truthy unless it is empty; an option left unset is
    [undefined]. *)
Definition str_truthy (o : option string) : bool :=
  match o with
  | Some s => negb (String.eqb s EmptyString)
  | None => false
  end.

(** [array.includes(options.format)] for an array of strings. *)
Definition includes (l : list string) (o : option string) : bool :=
  match o with
  | Some s => bool_decide (s ∈ l)
  | None => false
  end.

(** Node's [path] module; [path.join] depends on the platform. *)
Class PathModule : Type := { path_join : string → string → string }.

(** [path.posix.join] of two paths: the non-empty arguments are joined by a
    slash and the result is normalised ([.] and empty segments dropped, [..]
    resolved, a trailing slash kept). *)
Fixpoint split_slash (p : string) : list string :=
  match p with
  | EmptyString => [EmptyString]
  | String c p' =>
    if Ascii.eqb c "/" then EmptyString :: split_slash p'
    else match split_slash p' with
         | seg :: segs => String c seg :: segs
         | [] => [String c EmptyString]
         end
  end.

Definition normalize_step (allowAboveRoot : bool) (stack : list string)
    (seg : string) : list string :=
  if String.eqb seg EmptyString || String.eqb seg "." then stack
  else if String.eqb seg ".." then
    match stack with
    | top :: below =>
      if String.eqb top ".." then
        (if allowAboveRoot then seg :: stack else stack)
      else below
    | [] => if allowAboveRoot then [seg] else []
    end
  else seg :: stack.

Definition starts_with_slash (p : string) : bool :=
  match p with
  | String c _ => Ascii.eqb c "/"
  | EmptyString => false
  end.

Definition posix_normalize (p : string) : string :=
  if String.eqb p EmptyString then "."
  else
    let isAbsolute := starts_with_slash p in
    let trailingSeparator := endsWith p "/" in
    let segs := rev (fold_left (normalize_step (negb isAbsolute)) (split_slash p) []) in
    let body := String.concat "/" segs in
    if String.eqb body EmptyString then
      (if isAbsolute then "/" else if trailingSeparator then "./" else ".")
    else
      let body' := if trailingSeparator then body +:+ "/" else body in
      if isAbsolute then "/" +:+ body' else body'.

Definition posix_join (a b : string) : string :=
  if String.eqb a EmptyString then
    (if String.eqb b EmptyString then "." else posix_normalize b)
  else if String.eqb b EmptyString then posix_normalize a
  else posix_normalize (a +:+ "/" +:+ b).

Definition posix : PathModule := {| path_join := posix_join |}.

(** ** The command-line program of [strudy.js] *)

(** The options object built by commander: a value option left unset is
    [undefined] (here [None]); a flag is [true] or [undefined] (here a
    boolean). *)
Record Options : Type := mkOptions {
  format : option string;
  diff : option string;
  spec : option (list string);
  dep : bool;
  onlynew : bool;
  perissue : bool;
  tr : option string
}.

(** The second argument of [studyCrawl]. *)
Record StudyOptions : Type := mkStudyOptions {
  include : option (list string);
  trResults : option string
}.

(** The second argument of [generateReport], in its two shapes. *)
Inductive ReportOptions : Type :=
  | DiffDepOptions (depReport diffReport : bool) (refStudyFile : option string)
      (onlyNew : bool)
  | FormatOptions (perSpec : bool).

(** What the program finds around it: the file system, and the functions it
    imports from modules that are not part of the two programs.  A function
    that may throw (or return a rejected promise) answers [None] then. *)
Record Env : Type := mkEnv {
  fs_access : string → bool;
  fs_open : string → option ReadOutcome;
  requireFromWorkingDirectory : string → option JSValue;
  studyCrawl : string → StudyOptions → option JSValue;
  generateReport : JSValue → ReportOptions → option string;
  json_stringify : JSValue → string;
  pandoc : string → list string → option string;
  dirname : string
}.

(** What [fs.stat] says of a path: a regular file, something else (a
    directory), or an error when nothing is there. *)
Inductive StatResult : Type :=
  | StatFile
  | StatOther
  | StatError.

(** What an observer sees of a run, in order.  The first group belongs to
    [strudy.js], the last four to the issue-filing script: an answer of
    [fs.stat], a file written by [fs.writeFile], a write that was not carried
    out, a command handed to [execSync]. *)
Inductive Event : Type :=
  | EvAccess (file : string) (ok : bool)
  | EvConsoleError (msg : string)
  | EvSniff (file : string)
  | EvRequire (file : string)
  | EvStudyCrawl (file : string) (opts : StudyOptions)
  | EvGenerateReport (study : JSValue) (opts : ReportOptions)
  | EvPandoc (markdown : string) (args : list string)
  | EvConsoleLog (res : string)
  | EvStat (file : string) (r : StatResult)
  | EvWriteFile (file : string) (data : string)
  | EvWriteFailed (file : string)
  | EvExec (command : string).

(** How a run stops early: [process.exit(code)], an exception nobody
    catches, or the end of the process while the computation waits for an
    answer (an exception of another computation went uncaught). *)
Inductive Halt : Type :=
  | Exit (code : Z)
  | Uncaught
  | Interrupted.

Inductive Result (A : Type) : Type :=
  | Val (a : A)
  | Halted (h : Halt).
Arguments Val {A} a.
Arguments Halted {A} h.

(** A computation logs events and either yields a value or halts. *)
Definition Run (A : Type) : Type := list Event * Result A.

#[export] Instance run_ret : MRet Run := λ A a, ([], Val a).

#[export] Instance run_bind : MBind Run := λ A B f m,
  match m with
  | (t, Val a) => let '(t', r) := f a in (t ++ t', r)
  | (t, Halted h) => (t, Halted h)
  end.

Definition emit (e : Event) : Run unit := ([e], Val tt).
Definition halt {A : Type} (h : Halt) : Run A := ([], Halted h).

(** [process.exit(code)] *)
Definition process_exit {A : Type} (code : Z) : Run A := halt (Exit code).

(** A call that may throw. *)
Definition try_call {A : Type} (e : Event) (r : option A) : Run A :=
  emit e;;
  match r with
  | Some a => mret a
  | None => halt Uncaught
  end.

Definition when (b : bool) (m : Run unit) : Run unit :=
  if b then m else mret tt.

Definition quoted (s : string) : string := QUOTE +:+ s +:+ QUOTE.

(** A value option inside a template literal. *)
Definition show_option (o : option string) : string := default "undefined" o.

Definition is_format (name : string) (o : option string) : bool :=
  bool_decide (o = Some name).

Definition MSG_FORMAT (fmt : string) : string :=
  "Unsupported --format option " +:+ quoted fmt +:+ "." +:+ NL +:+
  "Format must be one of " +:+ quoted "json" +:+ ", " +:+ quoted "markdown"
  +:+ " or " +:+ quoted "html" +:+ ".".
Definition MSG_DIFF_FORMAT : string :=
  "Diff reports are always in markdown." +:+ NL +:+
  "The --format option can only be set to " +:+ quoted "markdown" +:+
  " when --diff is used.".
Definition MSG_DIFF_PERISSUE : string :=
  "The --diff and --perissue options cannot both be set.".
Definition MSG_PERISSUE_FORMAT : string :=
  "The --format option must be " +:+ quoted "markdown" +:+ " or " +:+
  quoted "html" +:+ " when --perissue is set.".
Definition MSG_DEP_DIFF : string :=
  "The --dep and --diff options cannot both be set.".
Definition MSG_NO_REPORT (report : string) : string :=
  "Could not find/access crawl/study report: " +:+ report.
Definition MSG_NO_TR (trOption : option string) : string :=
  "Could not find/access TR crawl report: " +:+ show_option trOption.

(** [console.error(msg); process.exit(2);] *)
Definition fail (msg : string) : Run unit :=
  emit (EvConsoleError msg);; process_exit 2.

Section Action.
Context {P : PathModule} (env : Env).

(** [exists(file)]: can the file be read? *)
Definition exists_ (file : string) : Run bool :=
  let ok := fs_access env file in
  emit (EvAccess file ok);; mret ok.

(** The five checks on the options, in the order of the source. *)
Definition check_options (options : Options) : Run unit :=
  when (str_truthy (format options)
        && negb (includes ["json"; "markdown"; "html"] (format options)))
    (fail (MSG_FORMAT (show_option (format options))));;
  when (str_truthy (diff options) && str_truthy (format options)
        && negb (is_format "markdown" (format options)))
    (fail MSG_DIFF_FORMAT);;
  when (str_truthy (diff options) && perissue options)
    (fail MSG_DIFF_PERISSUE);;
  when (perissue options
        && negb (includes ["markdown"; "html"] (format options)))
    (fail MSG_PERISSUE_FORMAT);;
  when (dep options && str_truthy (diff options))
    (fail MSG_DEP_DIFF).

(** Where the reports are: [edReport] and [trReport] before they are
    probed. *)
Definition resolve_ed (report : string) (options : Options)
    : Run (string * option string) :=
  if endsWith report ".json" then mret (report, tr options)
  else
    hasEd ← exists_ (path_join report "ed");
    '(edDir, trReport) ←
      (if hasEd : bool then
         trReport ←
           (if str_truthy (tr options) then mret (tr options)
            else
              hasTr ← exists_ (path_join report "tr");
              mret (if hasTr : bool then Some (path_join report "tr")
                    else tr options));
         mret (path_join report "ed", trReport)
       else mret (report, tr options));
    mret (path_join edDir "index.json", trReport).

Definition locate_reports (report : string) (options : Options)
    : Run (string * option string) :=
  '(edReport, trReport) ← resolve_ed report options;
  found ← exists_ edReport;
  when (negb found) (fail (MSG_NO_REPORT report));;
  match trReport with
  | Some trPath =>
    if str_truthy trReport then
      let trFile :=
        if endsWith trPath ".json" then trPath
        else path_join trPath "index.json" in
      foundTr ← exists_ trFile;
      when (negb foundTr) (fail (MSG_NO_TR (tr options)));;
      mret (edReport, Some trFile)
    else mret (edReport, trReport)
  | None => mret (edReport, trReport)
  end.

(** The study: the report itself when sniffing says it is one and loading
    it gives a truthy value, the result of [studyCrawl] otherwise. *)
Definition load_study (edReport : string) (trReport : option string)
    (options : Options) : Run JSValue :=
  opened ← try_call (EvSniff edReport) (fs_open env edReport);
  let isStudy := isStudyReport opened in
  study ←
    (if truthy isStudy then
       try_call (EvRequire edReport) (requireFromWorkingDirectory env edReport)
     else mret JNull);
  if truthy study then mret study
  else
    let studyOptions :=
      {| include := spec options; trResults := trReport |} in
    try_call (EvStudyCrawl edReport studyOptions)
             (studyCrawl env edReport studyOptions).

Definition PANDOC_ARGS (template : string) : list string :=
  ["-f"; "markdown"; "-t"; "html5"; "--section-divs"; "-s";
   "--template"; template].

(** What is printed: a diff or dependencies report, a markdown or HTML
    report, or the study as JSON. *)
Definition render (study : JSValue) (options : Options) : Run string :=
  if str_truthy (diff options) || dep options then
    let reportOptions :=
      DiffDepOptions (dep options) (str_truthy (diff options))
                     (diff options) (onlynew options) in
    try_call (EvGenerateReport study reportOptions)
             (generateReport env study reportOptions)
  else if str_truthy (format options)
          && negb (is_format "json" (format options)) then
    let generateOptions := FormatOptions (negb (perissue options)) in
    markdown ← try_call (EvGenerateReport study generateOptions)
                        (generateReport env study generateOptions);
    if is_format "html" (format options) then
      let template :=
        path_join (path_join (path_join (dirname env) "src") "templates")
          ("report" +:+ (if perissue options then "-perissue" else EmptyString)
           +:+ "-template.html") in
      try_call (EvPandoc markdown (PANDOC_ARGS template))
               (pandoc env markdown (PANDOC_ARGS template))
    else mret markdown
  else mret (json_stringify env study).

(** The action of the command. *)
Definition action (report : string) (options : Options) : Run unit :=
  check_options options;;
  '(edReport, trReport) ← locate_reports report options;
  study ← load_study edReport trReport options;
  res ← render study options;
  emit (EvConsoleLog res).
End Action.

(** ** The issue-filing script *)

(** [o[k]] on the properties of an object, in key order; a missing key reads
    as [undefined]. *)
Fixpoint assoc (k : string) (props : list (string * JSValue)) : JSValue :=
  match props with
  | [] => JUndefined
  | (k', v) :: props' => if String.eqb k k' then v else assoc k props'
  end.

(** [v.name] for the names the script reads ([brokenLinks], [shortname],
    [repo], [title], [crawled]), none of which is a built-in property of a
    string, an array, a number or a boolean.  Reading a property of
    [undefined] or [null] throws. *)
Definition get_field (v : JSValue) (name : string) : option JSValue :=
  match v with
  | JUndefined | JNull => None
  | JObject props => Some (assoc name props)
  | _ => Some JUndefined
  end.

(** [ToString], as a template literal and [Array.prototype.join] apply it;
    [None] when the conversion throws.  An array gives its elements joined by
    commas, [undefined] and [null] counting as the empty string.  An object
    gives [[object Object]] through the method it inherits, unless it has a
    property [toString] of its own: the values here are data, none of them
    callable, so the conversion then finds no method that yields a primitive
    value and throws a [TypeError]. *)
Fixpoint to_string (v : JSValue) : option string :=
  match v with
  | JUndefined => Some "undefined"
  | JNull => Some "null"
  | JBool b => Some (if b then "true" else "false")
  | JNum text => Some text
  | JString s => Some s
  | JArray items =>
    match (fix join (l : list JSValue) : option (list string) :=
             match l with
             | [] => Some []
             | x :: l' =>
               match match x with
                     | JUndefined | JNull => Some EmptyString
                     | _ => to_string x
                     end, join l' with
               | Some s, Some r => Some (s :: r)
               | _, _ => None
               end
             end) items with
    | Some texts => Some (String.concat "," texts)
    | None => None
    end
  | JObject props =>
    if bool_decide ("toString" ∈ props.*1) then None
    else Some "[object Object]"
  end.

(** The text of a value whose conversion does not throw (the empty string
    stands in where it does, which the callback never uses: it converts with
    [to_string] first). *)
Definition to_str (v : JSValue) : string := default EmptyString (to_string v).

(** [s.match(/needle/)] for a pattern that is a plain sequence of
    characters: is [needle] a substring of [s]? *)
Fixpoint str_contains (needle s : string) : bool :=
  String.prefix needle s ||
  match s with
  | String _ s' => str_contains needle s'
  | EmptyString => false
  end.

(** [u.match(/w3\.org\/TR\//)] *)
Definition matches_TR (u : string) : bool := str_contains "w3.org/TR/" u.

(** The elements of an array of strings; [u.match] throws on an element that
    is not a string. *)
Definition as_string (v : JSValue) : option string :=
  match v with
  | JString s => Some s
  | _ => None
  end.

(** [specResult.brokenLinks?.filter(u => !u.match(/w3\.org\/TR\//)) || []]:
    [None] when the expression throws. *)
Definition filter_brokenLinks (brokenLinks : JSValue) : option (list string) :=
  match brokenLinks with
  | JUndefined | JNull => Some []
  | JArray items =>
    links ← mapM as_string items;
    Some (List.filter (λ u, negb (matches_TR u)) links)
  | _ => None
  end.

Definition issue_line (link : string) : string := "* [ ] " +:+ link.

(** The text of the issue file. *)
Definition issueReport (repo title crawled : string) (brokenLinks : list string)
    : string :=
  NL +:+ "Repo: " +:+ repo +:+ NL +:+
  "Tracked: N/A" +:+ NL +:+
  "Issue title: Broken references in " +:+ title +:+ NL +:+
  "---" +:+ NL +:+
  "While crawling [" +:+ title +:+ "](" +:+ crawled +:+
  "), the following links to other specifications were detected as pointing to non-existing anchors, which should be fixed:"
  +:+ NL +:+ String.concat NL (issue_line <$> brokenLinks) +:+ NL +:+ NL +:+
  "This issue was detected and reported semi-automatically by [strudy](https://github.com/w3c/strudy/) based on data collected in [webref](https://github.com/w3c/webref/).".

(** A call into the runtime that throws when its argument does. *)
Definition or_throw {A : Type} (r : option A) : Run A :=
  match r with
  | Some a => mret a
  | None => halt Uncaught
  end.

(** What becomes of [fs.writeFile]: the file is written and the callback
    goes on; the call is rejected, and the callback throws; or the process
    ends while the callback waits, the file written by then or not. *)
Inductive WriteFate : Type :=
  | WriteResolves
  | WriteRejects
  | WriteCut (written : bool).

(** What becomes of the calls of one callback: whether [fs.stat] answers
    before the process ends, how [fs.writeFile] fares, and whether the
    [n]-th [execSync] returns rather than throws. *)
Record Fate : Type := mkFate {
  stat_answers : bool;
  write_fate : WriteFate;
  exec_returns : nat → bool
}.

Section IssueFiler.
Context {P : PathModule}.

(** Lines 33 to 39: [Target the index file if needed]. *)
Definition target_index (crawlResultsPath : string) : string :=
  if endsWith crawlResultsPath "index.json" then crawlResultsPath
  else path_join crawlResultsPath "index.json".

Definition issueMoniker (shortname : JSValue) : string :=
  to_str shortname +:+ "-brokenlinks".

Definition issueFilename (shortname : JSValue) : string :=
  path_join "issues/" (issueMoniker shortname +:+ ".md").

(** [execSync(command)], the [n]-th of a callback: the command runs, and the
    call throws when it fails. *)
Definition execSync (fate : Fate) (n : nat) (command : string) : Run unit :=
  emit (EvExec command);;
  if exec_returns fate n then mret tt else halt Uncaught.

(** The callback run for one specification.  [stat] is what [fs.stat]
    answers when the callback asks, [fate] what becomes of the calls.  No
    event is logged for [fs.stat] when the process ends before it answers; a
    write that was not carried out is logged as [EvWriteFailed], for what it
    left of the file is not the text of the issue. *)
Definition issue_callback (currentBranch : string)
    (stat : string → StatResult) (fate : Fate) (specResult : JSValue)
    : Run unit :=
  field ← or_throw (get_field specResult "brokenLinks");
  brokenLinks ← or_throw (filter_brokenLinks field);
  if bool_decide (brokenLinks ≠ []) then
    shortname ← or_throw (get_field specResult "shortname");
    _ ← or_throw (to_string shortname);
    let file := issueFilename shortname in
    if negb (stat_answers fate) then halt Interrupted
    else
      emit (EvStat file (stat file));;
      match stat file with
      | StatOther =>
        emit (EvConsoleError (file +:+ " already exists but is not a file"))
      | StatFile => emit (EvConsoleLog (file +:+ " already exists, bailing"))
      | StatError =>
        let pullrequests : list JSValue := [] in
        if bool_decide (pullrequests ≠ []) then
          emit (EvConsoleLog "[]");;
          emit (EvConsoleLog ("A pull request from branch " +:+
                              issueMoniker shortname +:+
                              " already exists, bailing"))
        else
          repo ← or_throw (get_field specResult "repo");
          _ ← or_throw (to_string repo);
          title ← or_throw (get_field specResult "title");
          _ ← or_throw (to_string title);
          crawled ← or_throw (get_field specResult "crawled");
          _ ← or_throw (to_string crawled);
          let data :=
            issueReport (to_str repo) (to_str title) (to_str crawled)
                        brokenLinks in
          match write_fate fate with
          | WriteRejects => emit (EvWriteFailed file);; halt Uncaught
          | WriteCut written =>
            emit (if written then EvWriteFile file data
                  else EvWriteFailed file);;
            halt Interrupted
          | WriteResolves =>
            emit (EvWriteFile file data);;
            execSync fate 0 ("git checkout -b " +:+ issueMoniker shortname);;
            execSync fate 1 ("git add " +:+ file);;
            execSync fate 2
              ("git commit -m " +:+
               quoted ("File report on broken links found in " +:+
                       to_str title));;
            execSync fate 3 ("git checkout " +:+ currentBranch)
          end
      end
  else mret tt.

(** [Object.keys(results).slice(0,2).forEach(async uri => ...)]: the
    callbacks that are started, one run each; [fates n] is the fate of the
    [n]-th.  [results] lists the properties of the object in the order of
    [Object.keys].  The callbacks share the process: when one of them throws,
    the process ends and the other is cut where it waits, which its fate
    says. *)
Definition issue_pass (currentBranch : string) (stat : string → StatResult)
    (fates : nat → Fate) (results : list (string * JSValue))
    : list (Run unit) :=
  imap (λ n uri, issue_callback currentBranch stat (fates n) (assoc uri results))
       (take 2 (results.*1)).
End IssueFiler.

(** The state the script acts on: the files it can see and the commands it
    has handed to the shell. *)
Inductive FsNode : Type :=
  | Regular (data : string)
  | Directory.

Record World : Type := mkWorld {
  files : gmap string FsNode;
  commands : list string
}.

Definition stat_world (w : World) (file : string) : StatResult :=
  match files w !! file with
  | Some (Regular _) => StatFile
  | Some Directory => StatOther
  | None => StatError
  end.

(** What lies outside the script.  What a command does to the files is the
    business of the shell and of git: checking out the branch the script
    started on takes the issue file, committed on the new branch, out of the
    working tree.  The commands run so far stand for the state of the
    repository.  A write that fails may leave the file as it was, absent,
    empty or cut short. *)
Class Host : Type := {
  exec_files : World → string → gmap string FsNode;
  failed_write_files : World → string → gmap string FsNode
}.

Definition apply_event {host : Host} (w : World) (e : Event) : World :=
  match e with
  | EvWriteFile file data =>
    {| files := <[file := Regular data]> (files w); commands := commands w |}
  | EvWriteFailed file =>
    {| files := failed_write_files w file; commands := commands w |}
  | EvExec command =>
    {| files := exec_files w command; commands := commands w ++ [command] |}
  | _ => w
  end.

Definition apply_events {host : Host} (w : World) (t : list Event) : World :=
  foldl apply_event w t.

(** ** Notions the properties are stated with *)

(** The text of a discriminator: the key, white space, a colon, white space,
    the value. *)
Definition marker_text (w : list N) : Prop :=
  ∃ w1 w2, Forall (λ c, is_ws c = true) w1 ∧ Forall (λ c, is_ws c = true) w2 ∧
           w = KEY ++ w1 ++ [COLON] ++ w2 ++ VAL.

(** The discriminator occurs in [content] and ends within its first [n]
    bytes. *)
Definition marker_within (n : nat) (content : list byte) : Prop :=
  ∃ pre m post w,
    content = pre ++ m ++ post ∧ (length (pre ++ m) ≤ n)%nat ∧
    marker_text w ∧ Byte.to_N <$> m = utf8_encode w.

(** The pattern of [isStudyReport] applied to the text of the whole file. *)
Definition content_matches (content : list byte) : bool :=
  re_search study_re_here (utf8_decode (Byte.to_N <$> content)).

(** The run called [studyCrawl]. *)
Definition calls_studyCrawl (t : list Event) : Prop :=
  ∃ file opts, EvStudyCrawl file opts ∈ t.

(** The events that are analysis or output: everything but probes of the
    file system and messages on the error stream. *)
Definition is_work (e : Event) : bool :=
  match e with
  | EvAccess _ _ | EvConsoleError _ => false
  | _ => true
  end.

Definition is_error (e : Event) : bool :=
  match e with
  | EvConsoleError _ => true
  | _ => false
  end.

(** The events that change the file system or the git repository. *)
Definition is_mutation (e : Event) : bool :=
  match e with
  | EvWriteFile _ _ | EvWriteFailed _ | EvExec _ => true
  | _ => false
  end.

(** The commands handed to the shell when [commands] are run in order, the
    first as the [n]-th call of [execSync]: all up to the first that fails,
    that one included. *)
Fixpoint handed (returns : nat → bool) (n : nat) (commands : list string)
    : list string :=
  match commands with
  | [] => []
  | command :: rest =>
    command :: (if returns n then handed returns (S n) rest else [])
  end.

(** *** The diff of two studies *)

Inductive AnomalyKind : Type :=
  | BrokenLink
  | StaleLink
  | DuplicateDefinition
  | OrphanDefinition.

#[export] Instance AnomalyKind_eq_dec : EqDecision AnomalyKind.
Proof. solve_decision. Defined.

(** An anomaly is compared by its kind and its target or fragment. *)
Record AnomalyRecord : Type := mkAnomaly {
  kind : AnomalyKind;
  target : string
}.

#[export] Instance AnomalyRecord_eq_dec : EqDecision AnomalyRecord.
Proof. solve_decision. Defined.

(** A study, keyed by shortname, in insertion order. *)
Definition StudyResult : Type := list (string * list AnomalyRecord).

Record DiffEntry : Type := mkDiffEntry {
  added : list AnomalyRecord;
  removed : list AnomalyRecord
}.

Fixpoint anomalies_of (shortname : string) (study : StudyResult)
    : option (list AnomalyRecord) :=
  match study with
  | [] => None
  | (k, l) :: study' =>
    if String.eqb k shortname then Some l else anomalies_of shortname study'
  end.

(** The anomalies of [l1] that [l2] does not have. *)
Definition minus (l1 l2 : list AnomalyRecord) : list AnomalyRecord :=
  List.filter (λ a, bool_decide (a ∉ l2)) l1.

(** Modelled from the spec: [generateReport] of [src/lib/generate-report.js]
    is not among the sources.  Sections 3 and 4.5 of the specification give
    the diff of two studies: for each shortname, the anomalies added and
    removed, by set difference; a specification on one side only is wholly
    added or wholly removed; with [onlyNew] the removed lists are
    suppressed. *)
Definition Diff (reference candidate : StudyResult) (onlyNew : bool)
    : list (string * DiffEntry) :=
  let suppress (l : list AnomalyRecord) := if onlyNew then [] else l in
  ((λ '(k, l),
      let old := default [] (anomalies_of k reference) in
      (k, {| added := minus l old; removed := suppress (minus old l) |}))
     <$> candidate)
  ++ ((λ '(k, l), (k, {| added := []; removed := suppress l |}))
        <$> List.filter (λ '(k, _), bool_decide (anomalies_of k candidate = None))
                        reference).

(** Modelled from the spec: [studyCrawl] and [studyBackrefs], which produce
    the study, are not among the sources.  Section 6 of the specification
    gives the shape of one entry of a study: [title], [repo] and [crawled]
    are strings, and [brokenLinks], [staleLinks] and [duplicateDefinitions]
    are arrays of literal target strings. *)
Record StudyEntry : Type := mkStudyEntry {
  entry_title : string;
  entry_repo : string;
  entry_crawled : string;
  entry_brokenLinks : list string;
  entry_staleLinks : list string;
  entry_duplicateDefinitions : list string
}.

Definition exposes (v : JSValue) (e : StudyEntry) : Prop :=
  get_field v "title" = Some (JString (entry_title e)) ∧
  get_field v "repo" = Some (JString (entry_repo e)) ∧
  get_field v "crawled" = Some (JString (entry_crawled e)) ∧
  get_field v "brokenLinks" = Some (JArray (JString <$> entry_brokenLinks e)) ∧
  get_field v "staleLinks" = Some (JArray (JString <$> entry_staleLinks e)) ∧
  get_field v "duplicateDefinitions"
    = Some (JArray (JString <$> entry_duplicateDefinitions e)).

(** Modelled from the spec: the Report Loader is not among the sources.
    Section 3 of the specification gives what a crawl record holds of a
    specification; the links and the definitions are left out, their analysis
    being given here by its outcome, the anomalies. *)
Record CrawlRecord : Type := mkCrawlRecord {
  crawl_shortname : string;
  crawl_title : string;
  crawl_repository : string;
  crawl_url : string
}.

(** Modelled from the spec: the targets or fragments of the anomalies of one
    kind, in their order (section 3, AnomalyRecord). *)
Definition targets (k : AnomalyKind) (anomalies : list AnomalyRecord)
    : list string :=
  target <$> List.filter (λ a, bool_decide (kind a = k)) anomalies.

(** Modelled from the spec: the summary of one specification (section 3,
    StudyResult): its title, repository and crawled URL, and its anomalies by
    kind. *)
Definition entry_of (r : CrawlRecord) (anomalies : list AnomalyRecord)
    : StudyEntry := {|
  entry_title := crawl_title r;
  entry_repo := crawl_repository r;
  entry_crawled := crawl_url r;
  entry_brokenLinks := targets BrokenLink anomalies;
  entry_staleLinks := targets StaleLink anomalies;
  entry_duplicateDefinitions := targets DuplicateDefinition anomalies
|}.

(** Modelled from the spec: the JSON value of one entry, with the properties
    section 6 lists and no other. *)
Definition study_value (e : StudyEntry) : JSValue :=
  JObject [("title", JString (entry_title e));
           ("repo", JString (entry_repo e));
           ("crawled", JString (entry_crawled e));
           ("brokenLinks", JArray (JString <$> entry_brokenLinks e));
           ("staleLinks", JArray (JString <$> entry_staleLinks e));
           ("duplicateDefinitions",
            JArray (JString <$> entry_duplicateDefinitions e))].

(** Modelled from the spec: the Result Aggregator (section 4.4) is not among
    the sources.  It builds the study keyed by shortname, in the order of the
    crawl records. *)
Definition aggregate (analysed : list (CrawlRecord * list AnomalyRecord))
    : list (string * JSValue) :=
  (λ '(r, anomalies), (crawl_shortname r, study_value (entry_of r anomalies)))
    <$> analysed.

(** *** Characters *)

(** Scalar values of the basic plane: below U+10000 and not a surrogate. *)
Definition bmp_scalar (c : N) : bool :=
  (c <? 0xD800) || in_range 0xE000 0xFFFF c.

(** The characters the sniffing pattern can match: ASCII or white space. *)
Definition pattern_char (c : N) : Prop := c < 0x80 ∨ is_ws c = true.

(** *** Runs of the command *)

(** The options pass the five checks. *)
Definition options_ok (options : Options) : bool :=
  negb (str_truthy (format options)
        && negb (includes ["json"; "markdown"; "html"] (format options)))
  && negb (str_truthy (diff options) && str_truthy (format options)
           && negb (is_format "markdown" (format options)))
  && negb (str_truthy (diff options) && perissue options)
  && negb (perissue options
           && negb (includes ["markdown"; "html"] (format options)))
  && negb (dep options && str_truthy (diff options)).

(** The file the command takes for the report. *)
Definition edReport_of {P : PathModule} (env : Env) (report : string) : string :=
  if endsWith report ".json" then report
  else
    path_join
      (if fs_access env (path_join report "ed") then path_join report "ed"
       else report)
      "index.json".

Definition is_probe (e : Event) : bool :=
  match e with
  | EvAccess _ _ => true
  | _ => false
  end.

(** *** Sample inputs *)

Definition bytes_of (s : string) : list byte := String.list_byte_of_string s.

(** The text ["type": "study"]. *)
Definition MARKER : string := quoted "type" +:+ ": " +:+ quoted "study".

(** A small study report, and a report whose discriminator comes after 1024
    spaces. *)
Definition early_report : list byte := bytes_of ("{" +:+ MARKER +:+ "}").
Definition late_report : list byte :=
  bytes_of "{" ++ replicate 1024 x20 ++ bytes_of (MARKER +:+ "}").

(** A crawl report, which has no discriminator. *)
Definition crawl_report : list byte :=
  bytes_of ("{" +:+ quoted "results" +:+ ": []}").

Definition sample_study : JSValue := JObject [("type", JString "study")].

(** An environment with one readable file, [report.json]. *)
Definition sample_env (content : list byte) : Env := {|
  fs_access := λ file, String.eqb file "report.json";
  fs_open := λ _, Some (ReadBytes content);
  requireFromWorkingDirectory := λ _, Some sample_study;
  studyCrawl := λ _ _, Some sample_study;
  generateReport := λ _ _, Some "report";
  json_stringify := λ _, "{}";
  pandoc := λ markdown _, Some markdown;
  dirname := "/opt/strudy"
|}.

(** An environment in which the folder [webref] has an [ed] subfolder. *)
Definition folder_env : Env := {|
  fs_access := λ file, bool_decide (file ∈ ["webref/ed"; "webref/ed/index.json"]);
  fs_open := λ _, Some (ReadBytes early_report);
  requireFromWorkingDirectory := λ _, Some sample_study;
  studyCrawl := λ _ _, Some sample_study;
  generateReport := λ _ _, Some "report";
  json_stringify := λ _, "{}";
  pandoc := λ markdown _, Some markdown;
  dirname := "/opt/strudy"
|}.

Definition no_options : Options := {|
  format := None; diff := None; spec := None; dep := false;
  onlynew := false; perissue := false; tr := None
|}.

Definition diff_options : Options := {|
  format := None; diff := Some "reference.json"; spec := None; dep := false;
  onlynew := true; perissue := false; tr := None
|}.

(** Two studies of one specification: a link was fixed, another broke. *)
Definition sample_reference : StudyResult :=
  [("dom", [mkAnomaly BrokenLink "https://example.org/#a";
            mkAnomaly BrokenLink "https://example.org/#b"])].
Definition sample_candidate : StudyResult :=
  [("dom", [mkAnomaly BrokenLink "https://example.org/#b";
            mkAnomaly BrokenLink "https://example.org/#c"])].

(** An entry of a study as the issue-filing script reads it. *)
Definition sample_entry : JSValue :=
  JObject [("title", JString "DOM Standard");
           ("shortname", JString "dom");
           ("repo", JString "https://github.com/whatwg/dom");
           ("crawled", JString "https://dom.spec.whatwg.org/");
           ("brokenLinks",
            JArray [JString "https://www.w3.org/TR/SVG11/#unknown";
                    JString "https://w3c.github.io/DOM-Parsing/#dfn-createcontextualfragment-fragment"]);
           ("staleLinks", JArray []);
           ("duplicateDefinitions", JArray [])].

(** The same entry, as section 6 of the specification describes it. *)
Definition sample_exposed : StudyEntry := {|
  entry_title := "DOM Standard";
  entry_repo := "https://github.com/whatwg/dom";
  entry_crawled := "https://dom.spec.whatwg.org/";
  entry_brokenLinks :=
    ["https://www.w3.org/TR/SVG11/#unknown";
     "https://w3c.github.io/DOM-Parsing/#dfn-createcontextualfragment-fragment"];
  entry_staleLinks := [];
  entry_duplicateDefinitions := []
|}.

(** An entry all of whose broken links point into [w3.org/TR/]. *)
Definition quiet_entry : JSValue :=
  JObject [("title", JString "Compatibility Standard");
           ("shortname", JString "compat");
           ("brokenLinks", JArray [JString "https://www.w3.org/TR/css-color-4/#x"])].


(** A world without issue files, and one in which the issue on [dom] has
    been written. *)
Definition empty_world : World := {| files := ∅; commands := [] |}.
Definition filed_world : World := {|
  files := {[ "issues/dom-brokenlinks.md" := Regular "Repo: ..." ]};
  commands := []
|}.

(** The crawl record and the anomalies behind [sample_exposed], and the study
    aggregated from them. *)
Definition sample_crawl : CrawlRecord := {|
  crawl_shortname := "dom";
  crawl_title := "DOM Standard";
  crawl_repository := "https://github.com/whatwg/dom";
  crawl_url := "https://dom.spec.whatwg.org/"
|}.
Definition sample_anomalies : list AnomalyRecord :=
  [mkAnomaly BrokenLink "https://www.w3.org/TR/SVG11/#unknown";
   mkAnomaly BrokenLink
     "https://w3c.github.io/DOM-Parsing/#dfn-createcontextualfragment-fragment"].
Definition sample_produced : list (string * JSValue) :=
  aggregate [(sample_crawl, sample_anomalies)].

(** Every call is answered and succeeds. *)
Definition steady : Fate := {|
  stat_answers := true;
  write_fate := WriteResolves;
  exec_returns := λ _, true
|}.

(** The directory [issues/] is missing: the write is rejected. *)
Definition no_issues_folder : Fate := {|
  stat_answers := true;
  write_fate := WriteRejects;
  exec_returns := λ _, true
|}.

(** The branch of the issue exists already: [git checkout -b] fails. *)
Definition branch_exists : Fate := {|
  stat_answers := true;
  write_fate := WriteResolves;
  exec_returns := λ n, negb (n =? 0)%nat
|}.

(** A host on which checking out [main] takes the issue on [dom] out of the
    working tree, and a failed write leaves the files as they were. *)
Definition git_host : Host := {|
  exec_files := λ w command,
    if String.eqb command "git checkout main"
    then delete "issues/dom-brokenlinks.md" (files w)
    else files w;
  failed_write_files := λ w _, files w
|}.

(** What follows the location of the reports: lines 214 to 268. *)
Definition study_and_print {P : PathModule} (env : Env) (edReport : string)
    (trReport : option string) (options : Options) : Run unit :=
  study ← load_study env edReport trReport options;
  res ← render env study options;
  emit (EvConsoleLog res).

(** The events of generating and printing a report. *)
Definition is_output (e : Event) : bool :=
  match e with
  | EvGenerateReport _ _ | EvPandoc _ _ | EvConsoleLog _ => true
  | _ => false
  end.

(** *** Further notions *)

(** The events on the console. *)
Definition is_console (e : Event) : bool :=
  match e with
  | EvConsoleError _ | EvConsoleLog _ => true
  | _ => false
  end.

(** A computation throws or yields a value: it neither exits nor is cut
    short. *)
Definition no_exit {A : Type} (r : Result A) : Prop :=
  match r with
  | Val _ | Halted Uncaught => True
  | Halted (Exit _) | Halted Interrupted => False
  end.

(** *** Further sample inputs *)

Definition html_options : Options := {|
  format := Some "html"; diff := None; spec := None; dep := false;
  onlynew := false; perissue := true; tr := None
|}.

(** An environment in which the folder [webref] has the subfolders [ed] and
    [tr], each with its index file; [broken] lists files that cannot be
    read. *)
Definition webref_env (broken : list string) : Env := {|
  fs_access := λ file,
    bool_decide (file ∈ ["webref/ed"; "webref/ed/index.json";
                         "webref/tr"; "webref/tr/index.json";
                         "published/index.json"])
    && negb (bool_decide (file ∈ broken));
  fs_open := λ _, Some (ReadBytes crawl_report);
  requireFromWorkingDirectory := λ _, Some sample_study;
  studyCrawl := λ _ _, Some sample_study;
  generateReport := λ _ _, Some "report";
  json_stringify := λ _, "{}";
  pandoc := λ markdown _, Some markdown;
  dirname := "/opt/strudy"
|}.

Definition tr_options : Options := {|
  format := None; diff := None; spec := None; dep := false;
  onlynew := false; perissue := false; tr := Some "published"
|}.

(** *** The token of the issue-filing script *)

(** Lines 11 to 17: the token comes from [config.json] when that file can be
    loaded and a property can be read from what it holds, and from the
    environment otherwise.  [config] is [None] when [require] throws. *)
Definition GH_TOKEN (config : option JSValue) (env_token : option string)
    : JSValue :=
  let from_env :=
    match env_token with
    | Some s => JString s
    | None => JUndefined
    end in
  match config with
  | Some c =>
    match get_field c "GH_TOKEN" with
    | Some v => v
    | None => from_env
    end
  | None => from_env
  end.

Definition MSG_TOKEN : string :=
  "GH_TOKEN must be set to some personal access token as an env variable or in a config.json file".

(** Lines 19 to 22. *)
Definition check_token (config : option JSValue) (env_token : option string)
    : Run unit :=
  when (negb (truthy (GH_TOKEN config env_token)))
    (emit (EvConsoleError MSG_TOKEN);; process_exit 1).

(** * Properties *)

(** ** Decoding *)

Lemma utf8_first_length bs cus rest :
  utf8_first bs = Some (cus, rest) → (length rest < length bs)%nat.
Proof.
  unfold utf8_first. intros H.
  repeat case_match; simplify_eq; simpl; lia.
Qed.

Lemma utf8_decode_fuel_enough n bs :
  (length bs ≤ n)%nat → utf8_decode_fuel n bs = utf8_decode bs.
Proof.
  unfold utf8_decode. revert bs.
  induction n as [n IH] using lt_wf_ind. intros bs Hn.
  destruct n as [|n].
  - destruct bs; simpl in *; [done | lia].
  - destruct bs as [|b bs']; [done|].
    cbn [utf8_decode_fuel length].
    destruct (utf8_first (b :: bs')) as [[cus rest]|] eqn:E; [|done].
    apply utf8_first_length in E. simpl in E, Hn.
    rewrite (IH n) by lia. rewrite (IH (length bs')) by lia. done.
Qed.

Lemma utf8_decode_unfold bs :
  utf8_decode bs =
    match utf8_first bs with
    | None => []
    | Some (cus, rest) => cus ++ utf8_decode rest
    end.
Proof.
  destruct bs as [|b bs']; [done|].
  unfold utf8_decode at 1. cbn [utf8_decode_fuel length].
  destruct (utf8_first (b :: bs')) as [[cus rest]|] eqn:E; [|done].
  apply utf8_first_length in E. simpl in E.
  by rewrite utf8_decode_fuel_enough by lia.
Qed.

Ltac ndiv := zify; Z.to_euclidean_division_equations; lia.

Ltac bools :=
  repeat match goal with
  | H : (_ <? _) = true |- _ => apply N.ltb_lt in H
  | H : (_ <? _) = false |- _ => apply N.ltb_ge in H
  | H : (_ <=? _) = true |- _ => apply N.leb_le in H
  | H : (_ <=? _) = false |- _ => apply N.leb_gt in H
  | H : (_ =? _) = true |- _ => apply N.eqb_eq in H
  | H : (_ =? _) = false |- _ => apply N.eqb_neq in H
  | H : _ && _ = true |- _ => apply andb_true_iff in H; destruct H
  | H : _ && _ = false |- _ => apply andb_false_iff in H
  | H : _ || _ = true |- _ => apply orb_true_iff in H
  | H : _ || _ = false |- _ => apply orb_false_iff in H; destruct H
  end.

Ltac solve_cond :=
  unfold is_cont, in_range, second_lo3, second_hi3, second_lo4, second_hi4;
  repeat match goal with
         | |- context [?a =? ?b] => destruct (N.eqb_spec a b)
         end;
  repeat match goal with
         | |- _ && _ = true => apply andb_true_iff; split
         | |- (_ <=? _) = true => apply N.leb_le; ndiv
         | |- (_ <? _) = true => apply N.ltb_lt; ndiv
         | |- (_ <=? _) = false => apply N.leb_gt; ndiv
         | |- (_ <? _) = false => apply N.ltb_ge; ndiv
         | |- (?a <? ?b) || _ = true =>
           destruct (N.ltb_spec a b); [reflexivity | cbn [orb]]
         | |- _ && _ = false =>
           apply andb_false_iff;
           first [left; solve [solve_cond] | right; solve [solve_cond]]
         end.

(* settle the condition at the head of the goal *)
Ltac step_if :=
  match goal with
  | |- (if ?c then _ else _) = _ =>
    first [ replace c with true by (symmetry; solve_cond)
          | replace c with false by (symmetry; solve_cond) ];
    cbv iota
  end.

(* settle the first condition of the left-hand side *)
Ltac step_if_any :=
  match goal with
  | |- context [if ?c then _ else _] =>
    first [ replace c with true by (symmetry; solve [solve_cond])
          | replace c with false by (symmetry; solve [solve_cond]) ];
    cbv iota
  end.

Lemma utf8_first_encode1 c rest :
  bmp_scalar c = true →
  utf8_first (utf8_encode1 c ++ rest) = Some ([c], rest).
Proof.
  unfold bmp_scalar, utf8_encode1, in_range. intros Hc.
  assert (c < 0xD800 ∨ 0xE000 ≤ c ∧ c < 0x10000) as Hc'
    by (bools; destruct Hc; bools; lia).
  clear Hc.
  destruct (N.ltb_spec c 0x80) as [E1|E1].
  { cbn [app utf8_first]. by step_if. }
  destruct (N.ltb_spec c 0x800) as [E2|E2]; cbn [app utf8_first];
    repeat step_if; unfold cp2, cp3; repeat f_equal; ndiv.
Qed.

Lemma utf8_first_cases bs cus rest :
  utf8_first bs = Some (cus, rest) →
  (∃ c, cus = [c] ∧ bmp_scalar c = true ∧ bs = utf8_encode1 c ++ rest)
  ∨ (cus = [REPLACEMENT] ∧ ∃ chunk, chunk ≠ [] ∧ bs = chunk ++ rest)
  ∨ (∃ hi lo chunk, cus = [hi; lo] ∧ in_range 0xD800 0xDBFF hi = true ∧
       in_range 0xDC00 0xDFFF lo = true ∧ bs = chunk ++ rest).
Proof.
  unfold utf8_first. intros H.
  repeat case_match; simplify_eq;
    unfold is_cont, in_range, second_lo3, second_hi3, second_lo4, second_hi4 in *;
    repeat match goal with
           | H : context [?a =? ?b] |- _ => destruct (N.eqb_spec a b)
           end;
    bools;
    first
      [ (* a well-formed sequence of one to three bytes *)
        left; eexists; split; [reflexivity|];
        unfold bmp_scalar, utf8_encode1, cp2, cp3, in_range;
        split;
        [ solve_cond
        | repeat step_if_any; cbn [app]; repeat f_equal; ndiv ]
      | (* an ill-formed prefix *)
        right; left; split; [reflexivity|];
        first [ by eexists [_] | by eexists [_; _] | by eexists [_; _; _] ]
      | (* four bytes *)
        right; right; do 2 eexists; eexists [_; _; _; _];
        split; [reflexivity|]; unfold cp4;
        split; [solve_cond | split; [solve_cond | reflexivity]] ].
Qed.

Lemma utf8_decode_encode w rest :
  Forall (λ c, bmp_scalar c = true) w →
  utf8_decode (utf8_encode w ++ rest) = w ++ utf8_decode rest.
Proof.
  induction 1 as [|c w Hc _ IH]; [done|].
  unfold utf8_encode in *. rewrite bind_cons, <-(assoc_L (++)).
  rewrite utf8_decode_unfold, utf8_first_encode1 by done.
  by rewrite IH.
Qed.

Lemma utf8_first_app_ascii pre x rest :
  pre ≠ [] → x < 0x80 →
  utf8_first (pre ++ x :: rest) =
    (λ '(cus, r), (cus, r ++ x :: rest)) <$> utf8_first pre.
Proof.
  intros Hpre Hx.
  assert (is_cont x = false) as Hc by solve_cond.
  assert (∀ b, in_range (second_lo3 b) (second_hi3 b) x = false) as H3
    by (intros; solve_cond).
  assert (∀ b, in_range (second_lo4 b) (second_hi4 b) x = false) as H4
    by (intros; solve_cond).
  destruct pre as [|b0 [|b1 [|b2 [|b3 r3]]]]; [done|..];
    cbn [app utf8_first]; rewrite ?Hc, ?H3, ?H4;
    repeat case_match; simplify_eq; done.
Qed.

Lemma utf8_first_None bs : utf8_first bs = None → bs = [].
Proof. unfold utf8_first. intros H. by repeat case_match. Qed.

Lemma utf8_decode_app_ascii pre x rest :
  x < 0x80 →
  utf8_decode (pre ++ x :: rest) = utf8_decode pre ++ x :: utf8_decode rest.
Proof.
  intros Hx. remember (length pre) as n eqn:Hn. revert pre Hn.
  induction n as [n IH] using lt_wf_ind. intros pre ->.
  destruct (decide (pre = [])) as [->|Hne].
  { cbn [app]. rewrite (utf8_decode_unfold (x :: rest)). cbn [utf8_first].
    apply N.ltb_lt in Hx as ->. done. }
  rewrite (utf8_decode_unfold (pre ++ _)), (utf8_decode_unfold pre).
  rewrite utf8_first_app_ascii by done.
  destruct (utf8_first pre) as [[cus r]|] eqn:E; [|by apply utf8_first_None in E].
  cbn [fmap option_fmap option_map]. apply utf8_first_length in E.
  rewrite (IH (length r)) by done. by rewrite (assoc_L (++)).
Qed.

Lemma re_lit_spec cs k s :
  re_lit cs k s = true ↔ ∃ s', s = cs ++ s' ∧ k s' = true.
Proof.
  revert s. induction cs as [|c cs IH]; intros s; cbn [re_lit app].
  { split; [intros; by exists s | by intros (s' & -> & ?)]. }
  destruct s as [|x s]; [split; [done | by intros (s' & ? & _)]|].
  destruct (N.eqb_spec x c) as [->|Hne].
  - rewrite IH. split; intros (s' & Hs & ?); exists s'; by simplify_eq.
  - split; [done | intros (s' & ? & _); by simplify_eq].
Qed.

Lemma re_star_ws_spec k s :
  re_star_ws k s = true ↔
  ∃ w s', s = w ++ s' ∧ Forall (λ c, is_ws c = true) w ∧ k s' = true.
Proof.
  induction s as [|x s IH]; cbn [re_star_ws].
  - split; [intros; by exists [], [] |].
    intros (w & s' & Hs & _ & Hk). symmetry in Hs.
    by apply app_eq_nil in Hs as [-> ->].
  - split.
    + destruct (is_ws x) eqn:Hx.
      * destruct (re_star_ws k s) eqn:Hr.
        -- intros _. apply proj1 in IH.
           destruct (IH eq_refl) as (w & s' & -> & Hw & Hk).
           exists (x :: w), s'. by repeat constructor.
        -- intros Hk. by exists [], (x :: s).
      * intros Hk. by exists [], (x :: s).
    + intros (w & s' & Hs & Hw & Hk).
      destruct w as [|c w]; cbn [app] in Hs.
      * subst s'. rewrite Hk. by repeat case_match.
      * simplify_eq. inversion_clear Hw as [|?? Hc Hw'].
        rewrite Hc. apply proj2 in IH. rewrite IH; [done|]. by exists w, s'.
Qed.

Lemma study_re_here_spec s :
  study_re_here s = true ↔ ∃ w s', marker_text w ∧ s = w ++ s'.
Proof.
  unfold study_re_here, marker_text.
  rewrite re_lit_spec. setoid_rewrite re_star_ws_spec.
  setoid_rewrite re_lit_spec. setoid_rewrite re_star_ws_spec.
  setoid_rewrite re_lit_spec.
  split.
  - intros (s1 & -> & w1 & s2 & -> & Hw1 & s3 & -> & w2 & s4 & -> & Hw2 & s5 & -> & _).
    exists (KEY ++ w1 ++ [COLON] ++ w2 ++ VAL), s5.
    split; [by exists w1, w2|]. by rewrite <-!(assoc_L (++)).
  - intros (w & s' & (w1 & w2 & Hw1 & Hw2 & ->) & ->).
    exists (w1 ++ [COLON] ++ w2 ++ VAL ++ s').
    split; [by rewrite <-!(assoc_L (++))|].
    exists w1, ([COLON] ++ w2 ++ VAL ++ s'). split_and!; [done..|].
    exists (w2 ++ VAL ++ s'). split; [done|].
    exists w2, (VAL ++ s'). split_and!; [done..|]. by exists s'.
Qed.

Lemma re_search_spec m s :
  re_search m s = true ↔ ∃ u v, s = u ++ v ∧ m v = true.
Proof.
  induction s as [|x s IH]; cbn [re_search].
  - destruct (m []) eqn:Hm.
    + split; [intros; by exists [], [] | done].
    + split; [done|]. intros (u & v & Hs & Hv). symmetry in Hs.
      apply app_eq_nil in Hs as [-> ->]. congruence.
  - destruct (m (x :: s)) eqn:Hm.
    + split; [intros; by exists [], (x :: s) | done].
    + rewrite IH. split.
      * intros (u & v & -> & Hv). by exists (x :: u), v.
      * intros (u & v & Hs & Hv). destruct u as [|y u]; cbn [app] in Hs.
        -- subst v. congruence.
        -- simplify_eq. by exists u, v.
Qed.

Lemma pattern_char_scalar c :
  pattern_char c → bmp_scalar c = true ∧ c ≠ REPLACEMENT.
Proof.
  unfold pattern_char, is_ws, bmp_scalar, in_range, REPLACEMENT.
  rewrite !orb_true_iff, !andb_true_iff, !N.leb_le, !N.eqb_eq, !N.ltb_lt.
  lia.
Qed.

Lemma utf8_encode_cons c w :
  utf8_encode (c :: w) = utf8_encode1 c ++ utf8_encode w.
Proof. unfold utf8_encode. by rewrite bind_cons. Qed.

Lemma utf8_encode_cons_ascii c w :
  c < 0x80 → utf8_encode (c :: w) = c :: utf8_encode w.
Proof.
  intros Hc. unfold utf8_encode. rewrite bind_cons. unfold utf8_encode1.
  by apply N.ltb_lt in Hc as ->.
Qed.

Lemma utf8_encode_app w1 w2 :
  utf8_encode (w1 ++ w2) = utf8_encode w1 ++ utf8_encode w2.
Proof. apply bind_app. Qed.

Lemma KEY_chars : Forall pattern_char KEY.
Proof. repeat constructor. Qed.

Lemma VAL_chars : Forall pattern_char VAL.
Proof. repeat constructor. Qed.

Lemma marker_text_chars w : marker_text w → Forall pattern_char w.
Proof.
  intros (w1 & w2 & Hw1 & Hw2 & ->).
  rewrite !Forall_app. split_and!.
  - apply KEY_chars.
  - apply (Forall_impl _ _ _ Hw1). intros c Hc. by right.
  - repeat constructor.
  - apply (Forall_impl _ _ _ Hw2). intros c Hc. by right.
  - apply VAL_chars.
Qed.

Lemma marker_text_head w : marker_text w → ∃ w', w = DQUOTE :: w'.
Proof. intros (w1 & w2 & _ & _ & ->). by eexists. Qed.

Lemma marker_text_last w : marker_text w → ∃ w', w = w' ++ [DQUOTE].
Proof.
  intros (w1 & w2 & _ & _ & ->).
  exists (KEY ++ w1 ++ [COLON] ++ w2 ++ DQUOTE :: code_units "study").
  by rewrite <-!(assoc_L (++)).
Qed.

Lemma utf8_decode_inv_prefix w :
  Forall pattern_char w → ∀ bs v,
  utf8_decode bs = w ++ v →
  ∃ post, bs = utf8_encode w ++ post ∧ utf8_decode post = v.
Proof.
  induction 1 as [|c w Hc _ IH]; intros bs v Hd.
  { by exists bs. }
  apply pattern_char_scalar in Hc as [Hs Hr].
  rewrite utf8_decode_unfold in Hd.
  destruct (utf8_first bs) as [[cus rest]|] eqn:E; [|done].
  apply utf8_first_cases in E
    as [(c' & -> & Hc' & ->)|[(-> & _)|(hi & lo & chunk & -> & Hhi & _)]];
    cbn [app] in *; simplify_eq.
  - destruct (IH _ _ H0) as (post & -> & Hpost).
    exists post. by rewrite utf8_encode_cons, <-(assoc_L (++)).
  - unfold bmp_scalar, in_range in *. bools. destruct Hs; bools; lia.
Qed.

Lemma utf8_decode_inv_occurrence w :
  Forall pattern_char w → w ≠ [] → ∀ bs u v,
  utf8_decode bs = u ++ w ++ v →
  ∃ pre post, bs = pre ++ utf8_encode w ++ post.
Proof.
  intros Hw Hne bs. remember (length bs) as n eqn:Hn. revert bs Hn.
  induction n as [n IH] using lt_wf_ind. intros bs -> u v Hd.
  destruct u as [|x u]; cbn [app] in Hd.
  { apply utf8_decode_inv_prefix in Hd as (post & -> & _); [|done].
    by exists [], post. }
  rewrite utf8_decode_unfold in Hd.
  destruct (utf8_first bs) as [[cus rest]|] eqn:E; [|done].
  pose proof (utf8_first_length _ _ _ E) as Hlen.
  assert (∃ chunk, bs = chunk ++ rest) as [chunk ->].
  { apply utf8_first_cases in E as [(? & _ & _ & ->)|[(_ & ? & _ & ->)|(? & ? & ? & _ & _ & _ & ->)]]; by eexists. }
  assert (utf8_decode rest = u ++ w ++ v ∨
          ∃ lo, in_range 0xDC00 0xDFFF lo = true ∧
                lo :: utf8_decode rest = u ++ w ++ v) as [Hr|(lo & Hlo & Hr)].
  { apply utf8_first_cases in E as [(? & -> & _)|[(-> & _)|(hi & lo & ? & -> & _ & Hlo & _)]];
      cbn [app] in *; simplify_eq; eauto. }
  - destruct (IH (length rest) Hlen rest eq_refl u v Hr) as (pre & post & ->).
    exists (chunk ++ pre), post. by rewrite <-(assoc_L (++)).
  - destruct u as [|y u]; cbn [app] in Hr.
    + destruct w as [|c w]; [done|]. cbn [app] in *; simplify_eq.
      inversion_clear Hw as [|?? Hc _].
      apply pattern_char_scalar in Hc as [Hs _].
      unfold bmp_scalar, in_range in *. bools. destruct Hs; bools; lia.
    + cbn [app] in *; simplify_eq.
      destruct (IH (length rest) Hlen rest eq_refl u v H0) as (pre & post & ->).
      exists (chunk ++ pre), post. by rewrite <-(assoc_L (++)).
Qed.

Lemma sniff_pattern_bytes bs :
  re_search study_re_here (utf8_decode bs) = true ↔
  ∃ pre w post, bs = pre ++ utf8_encode w ++ post ∧ marker_text w.
Proof.
  rewrite re_search_spec. setoid_rewrite study_re_here_spec. split.
  - intros (u & v & Hd & w & s' & Hw & ->).
    destruct (marker_text_head _ Hw) as [w' Hw'].
    destruct (utf8_decode_inv_occurrence w (marker_text_chars _ Hw)
                ltac:(by subst) bs u s' Hd) as (pre & post & ->).
    by exists pre, w, post.
  - intros (pre & w & post & -> & Hw).
    destruct (marker_text_head _ Hw) as [w' ->].
    pose proof (marker_text_chars _ Hw) as Hc.
    rewrite utf8_encode_cons_ascii by by vm_compute.
    cbn [app]. rewrite utf8_decode_app_ascii by by vm_compute.
    inversion_clear Hc as [|?? _ Hc'].
    rewrite utf8_decode_encode
      by (apply (Forall_impl _ _ _ Hc'); intros ? ?; by apply pattern_char_scalar).
    exists (utf8_decode pre), (DQUOTE :: w' ++ utf8_decode post).
    split; [done|]. by exists (DQUOTE :: w'), (utf8_decode post).
Qed.

Lemma sniff_buffer_marker content :
  re_search study_re_here (utf8_decode (sniff_buffer content)) = true ↔
  marker_within SNIFF content.
Proof.
  rewrite sniff_pattern_bytes. unfold sniff_buffer, marker_within. split.
  - intros (preN & w & postN & Hbuf & Hw).
    destruct (marker_text_last _ Hw) as [w' Hw'].
    set (A := Byte.to_N <$> take SNIFF content) in *.
    set (k := (SNIFF - length content)%nat) in *.
    assert (length (preN ++ utf8_encode w) ≤ length A)%nat as Hlen.
    { destruct (decide (length (preN ++ utf8_encode w) ≤ length A)%nat)
        as [|Hgt]; [done|exfalso].
      assert ((A ++ replicate k 0) !! (length (preN ++ utf8_encode w') )
              = Some DQUOTE) as Hq.
      { rewrite Hbuf, Hw', utf8_encode_app, !(assoc_L (++)).
        rewrite <-(assoc_L (++) _ _ postN).
        rewrite lookup_app_r by done. rewrite Nat.sub_diag.
        rewrite utf8_encode_cons_ascii by by vm_compute. done. }
      rewrite Hw', utf8_encode_app, (assoc_L (++)) in Hgt.
      rewrite (length_app (_ ++ _)) in Hgt.
      rewrite utf8_encode_cons_ascii in Hgt by by vm_compute.
      cbn [length utf8_encode mbind list_bind] in Hgt.
      rewrite lookup_app_r in Hq by lia.
      apply lookup_replicate in Hq as [Hq _]. done. }
    assert (A = (preN ++ utf8_encode w) ++ drop (length (preN ++ utf8_encode w)) A)
      as HA.
    { rewrite <-(take_drop (length (preN ++ utf8_encode w)) A) at 1. f_equal.
      rewrite <-(take_app_le A (replicate k 0)) by done.
      rewrite Hbuf, (assoc_L (++)). by rewrite take_app_length. }
    unfold A in HA at 1. rewrite <-(assoc_L (++)) in HA.
    apply fmap_app_inv in HA as (pre & T' & Hpre & HT' & HT).
    symmetry in HT'. apply fmap_app_inv in HT' as (m & post' & Hm & _ & ->).
    exists pre, m, (post' ++ drop SNIFF content), w.
    split_and!; [|
      |done|done].
    + rewrite <-(take_drop SNIFF content) at 1. rewrite HT.
      by rewrite <-!(assoc_L (++)).
    + apply (f_equal length) in HT. rewrite length_take, !length_app in HT.
      rewrite length_app. lia.
  - intros (pre & m & post & w & -> & Hlen & Hw & Hm).
    exists (Byte.to_N <$> pre), w,
      ((Byte.to_N <$> take (SNIFF - length (pre ++ m)) post)
       ++ replicate (SNIFF - length (pre ++ m ++ post)) 0).
    split; [|done].
    rewrite (assoc_L (++) pre m post), take_app_ge by done.
    rewrite !fmap_app, Hm. by rewrite <-!(assoc_L (++)).
Qed.

Lemma isStudyReport_true content :
  isStudyReport (ReadBytes content) = JBool true ↔ marker_within SNIFF content.
Proof.
  rewrite <-sniff_buffer_marker. cbn [isStudyReport].
  by destruct (re_search _ _).
Qed.

Lemma isStudyReport_undefined content :
  isStudyReport (ReadBytes content) = JUndefined ↔ ¬ marker_within SNIFF content.
Proof.
  rewrite <-sniff_buffer_marker. cbn [isStudyReport].
  by destruct (re_search _ _).
Qed.


(** ** The command *)

Lemma run_bind_val {A B : Type} (t : list Event) (a : A) (f : A → Run B) :
  (t, Val a) ≫= f = (t ++ (f a).1, (f a).2).
Proof. unfold mbind, run_bind. by destruct (f a). Qed.

Lemma run_bind_halted {A B : Type} (t : list Event) (h : Halt) (f : A → Run B) :
  (t, Halted h) ≫= f = (t, Halted h).
Proof. done. Qed.

(* decide the conditions of the guards, one after the other *)
Ltac guards :=
  repeat match goal with
         | |- context [when ?c _] =>
           lazymatch c with
           | true => fail
           | false => fail
           | _ => destruct c
           end
         end.

Lemma check_options_ok options :
  options_ok options = true → check_options options = ([], Val tt).
Proof.
  unfold options_ok, check_options.
  guards; done.
Qed.

Lemma check_options_fail options :
  options_ok options = false →
  ∃ msg, check_options options = ([EvConsoleError msg], Halted (Exit 2)).
Proof.
  unfold options_ok, check_options.
  guards; first [done | intros _; by eexists].
Qed.

Section Located.
Context {P : PathModule} (env : Env).

Lemma resolve_ed_spec report options :
  ∃ probes trReport,
    resolve_ed env report options = (probes, Val (edReport_of env report, trReport)) ∧
    Forall (λ e, is_probe e = true) probes ∧ (length probes ≤ 2)%nat.
Proof.
  unfold resolve_ed, edReport_of, exists_.
  destruct (endsWith report ".json").
  { eexists [], _. split_and!; [reflexivity | constructor | simpl; lia]. }
  destruct (fs_access env (path_join report "ed")).
  2: { eexists [_], _. split_and!; [reflexivity | by repeat constructor | simpl; lia]. }
  destruct (str_truthy (tr options)).
  { eexists [_], _. split_and!; [reflexivity | by repeat constructor | simpl; lia]. }
  destruct (fs_access env (path_join report "tr"));
    (eexists [_; _], _; split_and!; [reflexivity | by repeat constructor | simpl; lia]).
Qed.


Lemma locate_reports_missing report options :
  fs_access env (edReport_of env report) = false →
  ∃ probes,
    locate_reports env report options =
      (probes ++ [EvAccess (edReport_of env report) false;
                  EvConsoleError (MSG_NO_REPORT report)], Halted (Exit 2)) ∧
    Forall (λ e, is_probe e = true) probes ∧ (length probes ≤ 2)%nat.
Proof.
  intros Hacc. unfold locate_reports.
  destruct (resolve_ed_spec report options) as (probes & trReport & -> & Hp & Hl).
  exists probes. split; [|done].
  unfold exists_. cbn. rewrite Hacc. done.
Qed.

(** The trace of [locate_reports]: probes, then possibly one error. *)
Lemma locate_reports_trace report options :
  ∃ probes,
    Forall (λ e, is_probe e = true) probes ∧
    ((∃ trReport, locate_reports env report options =
                    (probes, Val (edReport_of env report, trReport)) ∧
                  fs_access env (edReport_of env report) = true)
     ∨ ∃ msg, locate_reports env report options =
                (probes ++ [EvConsoleError msg], Halted (Exit 2))).
Proof.
  destruct (fs_access env (edReport_of env report)) eqn:Hacc.
  2: { destruct (locate_reports_missing report options Hacc) as (probes & -> & Hp & _).
       exists (probes ++ [EvAccess (edReport_of env report) false]).
       split; [apply Forall_app; split; [done | by repeat constructor]|].
       right. eexists. by rewrite <-(assoc_L (++)). }
  unfold locate_reports.
  destruct (resolve_ed_spec report options) as (probes & trReport & -> & Hp & _).
  unfold exists_. cbn. rewrite Hacc. cbn.
  destruct trReport as [trPath|]; cbn.
  2: { eexists. split; [|left; eexists; split; [reflexivity|done]].
       rewrite ?app_nil_r. apply Forall_app. split; [done | by repeat constructor]. }
  destruct (negb (String.eqb trPath EmptyString)); cbn.
  2: { eexists. split; [|left; eexists; split; [reflexivity|done]].
       rewrite ?app_nil_r. apply Forall_app. split; [done | by repeat constructor]. }
  destruct (fs_access env (if endsWith trPath ".json" then _ else _)); cbn.
  - eexists. split; [|left; eexists; split; [reflexivity|done]].
    rewrite ?app_nil_r. apply Forall_app. split; [done | by repeat constructor].
  - exists (probes ++ [EvAccess (edReport_of env report) true;
                       EvAccess (if endsWith trPath ".json" then trPath
                                 else path_join trPath "index.json") false]).
    split; [apply Forall_app; split; [done | by repeat constructor]|].
    right. eexists. by rewrite <-(assoc_L (++)).
Qed.
End Located.

Section Runs.
Context {P : PathModule} (env : Env).

Lemma action_bad_options report options :
  options_ok options = false →
  ∃ msg, action env report options = ([EvConsoleError msg], Halted (Exit 2)).
Proof.
  intros [msg Hmsg]%check_options_fail. exists msg.
  unfold action. by rewrite Hmsg.
Qed.

Lemma action_located report options probes edReport trReport :
  options_ok options = true →
  locate_reports env report options = (probes, Val (edReport, trReport)) →
  action env report options =
    (probes ++ (study_and_print env edReport trReport options).1,
     (study_and_print env edReport trReport options).2).
Proof.
  intros Hok%check_options_ok Hloc. unfold action.
  by rewrite Hok, Hloc, !run_bind_val.
Qed.

Lemma load_study_sniffed edReport trReport options content :
  fs_open env edReport = Some (ReadBytes content) →
  marker_within SNIFF content →
  load_study env edReport trReport options =
    match requireFromWorkingDirectory env edReport with
    | Some v =>
      if truthy v then ([EvSniff edReport; EvRequire edReport], Val v)
      else
        let studyOptions :=
          {| include := spec options; trResults := trReport |} in
        ([EvSniff edReport; EvRequire edReport;
          EvStudyCrawl edReport studyOptions],
         match studyCrawl env edReport studyOptions with
         | Some study => Val study
         | None => Halted Uncaught
         end)
    | None => ([EvSniff edReport; EvRequire edReport], Halted Uncaught)
    end.
Proof.
  intros Hopen Hm%isStudyReport_true. unfold load_study, try_call, emit.
  rewrite Hopen. cbn [mbind run_bind mret run_ret app]. rewrite Hm.
  cbn [truthy].
  destruct (requireFromWorkingDirectory env edReport) as [v|]; cbn; [|done].
  destruct (truthy v); cbn; [done|]. by destruct (studyCrawl _ _ _).
Qed.

Lemma load_study_not_sniffed edReport trReport options content :
  fs_open env edReport = Some (ReadBytes content) →
  ¬ marker_within SNIFF content →
  load_study env edReport trReport options =
    let studyOptions := {| include := spec options; trResults := trReport |} in
    ([EvSniff edReport; EvStudyCrawl edReport studyOptions],
     match studyCrawl env edReport studyOptions with
     | Some study => Val study
     | None => Halted Uncaught
     end).
Proof.
  intros Hopen Hm%isStudyReport_undefined. unfold load_study, try_call, emit.
  rewrite Hopen. cbn [mbind run_bind mret run_ret app]. rewrite Hm.
  cbn. by destruct (studyCrawl _ _ _).
Qed.

(** After the study is there, the program only generates and prints. *)
Lemma render_trace study options :
  Forall (λ e, is_output e = true)
         (render env study options ≫= λ res, emit (EvConsoleLog res)).1.
Proof.
  unfold render, try_call, emit.
  destruct (str_truthy (diff options) || dep options).
  { destruct (generateReport env study _); cbn; repeat constructor. }
  destruct (str_truthy (format options) && _); [|cbn; repeat constructor].
  destruct (generateReport env study _); cbn; [|repeat constructor].
  destruct (is_format "html" (format options)); cbn; [|repeat constructor].
  destruct (pandoc env _ _); cbn; repeat constructor.
Qed.
End Runs.

Lemma content_matches_within content :
  content_matches content = true ↔ ∃ n, marker_within n content.
Proof.
  unfold content_matches. rewrite sniff_pattern_bytes. split.
  - intros (preN & w & postN & Hc & Hw).
    apply fmap_app_inv in Hc as (pre & T & -> & HT & ->).
    symmetry in HT. apply fmap_app_inv in HT as (m & post & Hm & -> & ->).
    by exists (length (pre ++ m)), pre, m, post, w.
  - intros (n & pre & m & post & w & -> & _ & Hw & Hm).
    exists (Byte.to_N <$> pre), w, (Byte.to_N <$> post).
    by rewrite !fmap_app, Hm.
Qed.

Lemma no_match_not_within content :
  content_matches content = false → ¬ marker_within SNIFF content.
Proof.
  intros Hc Hm. assert (content_matches content = true) as Ht; [|congruence].
  apply content_matches_within. by exists SNIFF.
Qed.

(** ** Claims on the command *)

(** C2: when both the dependencies report and the diff are requested, the
    run prints one configuration error and exits with code 2; nothing is
    probed, analysed or printed to the standard output. *)
Theorem diff_and_dep_rejected {P : PathModule} (env : Env) (report : string)
    (options : Options) :
  dep options = true → str_truthy (diff options) = true →
  ∃ msg, action env report options = ([EvConsoleError msg], Halted (Exit 2)).
Proof.
  intros Hdep Hdiff. apply action_bad_options.
  unfold options_ok. rewrite Hdep, Hdiff. by rewrite andb_false_r.
Qed.

Lemma diff_and_dep_rejected_witness :
  ∃ msg,
    action (P:=posix) (sample_env early_report) "report.json"
      {| format := None; diff := Some "old.json"; spec := None; dep := true;
         onlynew := false; perissue := false; tr := None |}
    = ([EvConsoleError msg], Halted (Exit 2)).
Proof. apply diff_and_dep_rejected; reflexivity. Defined.

(** C5: when the report file cannot be read, the run ends with exit code 2
    after a single message on the error stream, which is the last event;
    before it there are only probes of the file system, at most three.  When
    the options are valid the message names the report and the file is
    probed once, immediately before the message. *)
Theorem unreachable_report_is_terminal {P : PathModule} (env : Env)
    (report : string) (options : Options) :
  fs_access env (edReport_of env report) = false →
  ∃ probes msg,
    action env report options = (probes ++ [EvConsoleError msg], Halted (Exit 2)) ∧
    Forall (λ e, is_probe e = true) probes ∧ (length probes ≤ 3)%nat ∧
    (options_ok options = true →
     msg = MSG_NO_REPORT report ∧
     ∃ before, probes = before ++ [EvAccess (edReport_of env report) false]).
Proof.
  intros Hacc. destruct (options_ok options) eqn:Hok.
  - destruct (locate_reports_missing env report options Hacc)
      as (before & Hloc & Hp & Hl).
    exists (before ++ [EvAccess (edReport_of env report) false]),
           (MSG_NO_REPORT report).
    split_and!.
    + unfold action. rewrite (check_options_ok _ Hok), Hloc.
      cbn. by rewrite <-(assoc_L (++)).
    + apply Forall_app. split; [done | by repeat constructor].
    + rewrite length_app. simpl. lia.
    + intros _. split; [done | by exists before].
  - destruct (action_bad_options env report options Hok) as [msg Hmsg].
    exists [], msg. split_and!; [done | constructor | simpl; lia | done].
Qed.

Lemma unreachable_report_is_terminal_witness :
  ∃ probes msg,
    action (P:=posix) (sample_env early_report) "missing.json" no_options
      = (probes ++ [EvConsoleError msg], Halted (Exit 2)) ∧
    Forall (λ e, is_probe e = true) probes ∧ (length probes ≤ 3)%nat ∧
    (options_ok no_options = true →
     msg = MSG_NO_REPORT "missing.json" ∧
     ∃ before, probes = before ++
       [EvAccess (edReport_of (P:=posix) (sample_env early_report) "missing.json") false]).
Proof. apply unreachable_report_is_terminal; reflexivity. Defined.

(** C3, as the code has it: the command uses a location that ends in
    [.json] as it is, without probing; any other location is taken for a
    folder and resolved to [index.json] inside its [ed] subfolder when that
    one can be read, and directly inside the folder otherwise.  The
    issue-filing script uses a location that ends in [index.json] as it is
    and appends [index.json] to any other. *)
Theorem report_location_resolved {P : PathModule} (env : Env) (report : string)
    (options : Options) :
  (endsWith report ".json" = true →
   resolve_ed env report options = ([], Val (report, tr options))) ∧
  (endsWith report ".json" = false →
   ∃ probes trReport,
     resolve_ed env report options =
       (probes,
        Val (path_join (if fs_access env (path_join report "ed")
                        then path_join report "ed" else report) "index.json",
             trReport))) ∧
  (endsWith report "index.json" = true → target_index report = report) ∧
  (endsWith report "index.json" = false →
   target_index report = path_join report "index.json").
Proof.
  split_and!.
  - intros H. unfold resolve_ed. by rewrite H.
  - intros H.
    destruct (resolve_ed_spec env report options) as (probes & trReport & Hr & _).
    exists probes, trReport. rewrite Hr. unfold edReport_of. by rewrite H.
  - intros H. unfold target_index. by rewrite H.
  - intros H. unfold target_index. by rewrite H.
Qed.

Lemma report_location_resolved_witness :
  resolve_ed (P:=posix) folder_env "webref/ed/index.json" no_options
    = ([], Val ("webref/ed/index.json", None)) ∧
  (∃ probes trReport,
     resolve_ed (P:=posix) folder_env "webref" no_options
       = (probes, Val ("webref/ed/index.json", trReport))) ∧
  target_index (P:=posix) "webref/ed/index.json" = "webref/ed/index.json" ∧
  target_index (P:=posix) "webref/ed" = "webref/ed/index.json".
Proof.
  split_and!.
  - apply (report_location_resolved (P:=posix) folder_env
             "webref/ed/index.json" no_options). reflexivity.
  - apply (report_location_resolved (P:=posix) folder_env "webref" no_options).
    reflexivity.
  - apply (report_location_resolved (P:=posix) folder_env
             "webref/ed/index.json" no_options). reflexivity.
  - apply (report_location_resolved (P:=posix) folder_env "webref/ed" no_options).
    reflexivity.
Defined.

(** C3 as stated fails: the issue-filing script does not use the path of a
    JSON report as it is unless the file is called [index.json], and the
    command resolves a folder that has an [ed] subfolder to the index file of
    that subfolder, not to the one inside the folder itself. *)
Lemma report_location_counterexample :
  target_index (P:=posix) "webref/ed/crawl.json" = "webref/ed/crawl.json/index.json" ∧
  target_index (P:=posix) "webref/ed/crawl.json" ≠ "webref/ed/crawl.json" ∧
  edReport_of (P:=posix) folder_env "webref" = "webref/ed/index.json" ∧
  edReport_of (P:=posix) folder_env "webref" ≠ path_join (PathModule:=posix) "webref" "index.json".
Proof. by split_and!. Qed.

Lemma Forall_output_no_crawl (t : list Event) :
  Forall (λ e, is_output e = true) t → ¬ calls_studyCrawl t.
Proof.
  intros Ht (file & opts & Hin).
  by apply (proj1 (Forall_forall _ _) Ht) in Hin.
Qed.

Lemma Forall_probe_no_crawl (t : list Event) :
  Forall (λ e, is_probe e = true) t → ¬ calls_studyCrawl t.
Proof.
  intros Ht (file & opts & Hin).
  by apply (proj1 (Forall_forall _ _) Ht) in Hin.
Qed.

Lemma locate_reports_probes {P : PathModule} env report options probes r :
  locate_reports env report options = (probes, Val r) →
  Forall (λ e, is_probe e = true) probes.
Proof.
  intros Hloc.
  destruct (locate_reports_trace env report options)
    as (probes' & Hp & [(trReport & Heq & _)|(msg & Heq)]);
    rewrite Heq in Hloc; by simplify_eq.
Qed.

(** C1, as the code has it: when the discriminator ends within the first
    1024 bytes of the report and loading the report gives a truthy value (any
    JSON object is one), the run loads the file, uses the loaded value as the
    study and never calls [studyCrawl]; when the text of the report does not
    match the discriminator pattern at all, the run loads nothing and calls
    [studyCrawl] on the report. *)
Theorem study_report_loaded_directly {P : PathModule} (env : Env)
    (report : string) (options : Options) (probes : list Event)
    (edReport : string) (trReport : option string) (content : list byte) :
  options_ok options = true →
  locate_reports env report options = (probes, Val (edReport, trReport)) →
  fs_open env edReport = Some (ReadBytes content) →
  (marker_within SNIFF content →
   ∀ v, requireFromWorkingDirectory env edReport = Some v → truthy v = true →
   action env report options =
     (probes ++ [EvSniff edReport; EvRequire edReport]
        ++ (res ← render env v options; emit (EvConsoleLog res)).1,
      (res ← render env v options; emit (EvConsoleLog res)).2) ∧
   ¬ calls_studyCrawl (action env report options).1) ∧
  (content_matches content = false →
   let studyOptions := {| include := spec options; trResults := trReport |} in
   EvStudyCrawl edReport studyOptions ∈ (action env report options).1 ∧
   ∀ file, EvRequire file ∉ (action env report options).1).
Proof.
  intros Hok Hloc Hopen.
  rewrite (action_located env report options probes edReport trReport Hok Hloc).
  unfold study_and_print. split.
  - intros Hm v Hv Ht.
    rewrite (load_study_sniffed env edReport trReport options content Hopen Hm).
    rewrite Hv, Ht, run_bind_val. cbn [fst snd app].
    split; [done|].
    intros (file & opts & Hin).
    apply elem_of_app in Hin as [Hin|Hin].
    + eapply Forall_probe_no_crawl; [by eapply locate_reports_probes|].
      by exists file, opts.
    + apply elem_of_cons in Hin as [?|Hin]; [done|].
      apply elem_of_cons in Hin as [?|Hin]; [done|].
      eapply Forall_output_no_crawl; [apply (render_trace env v options)|].
      by exists file, opts.
  - intros Hc%no_match_not_within.
    rewrite (load_study_not_sniffed env edReport trReport options content Hopen Hc).
    cbn zeta. split.
    + destruct (studyCrawl env edReport _) as [study|].
      * rewrite run_bind_val. cbn [fst]. rewrite elem_of_app. right.
        apply elem_of_cons. right. apply elem_of_cons. by left.
      * cbn. rewrite elem_of_app. right.
        apply elem_of_cons. right. apply elem_of_cons. by left.
    + intros file Hin.
      assert (∀ t : list Event,
                Forall (λ e, is_output e = true) t →
                EvRequire file ∉ probes ++ [EvSniff edReport;
                  EvStudyCrawl edReport
                    {| include := spec options; trResults := trReport |}] ++ t)
        as Hno.
      { intros t Ht Hin'.
        apply elem_of_app in Hin' as [Hin'|Hin'].
        - pose proof (locate_reports_probes _ _ _ _ _ Hloc) as Hp.
          by apply (proj1 (Forall_forall _ _) Hp) in Hin'.
        - apply elem_of_cons in Hin' as [?|Hin']; [done|].
          apply elem_of_cons in Hin' as [?|Hin']; [done|].
          by apply (proj1 (Forall_forall _ _) Ht) in Hin'. }
      destruct (studyCrawl env edReport _) as [study|].
      * rewrite run_bind_val in Hin. cbn [fst app] in Hin.
        by apply (Hno _ (render_trace env study options)).
      * cbn in Hin. by apply (Hno [] ltac:(constructor)).
Qed.

Lemma early_report_within : marker_within SNIFF early_report.
Proof. apply isStudyReport_true. by vm_compute. Qed.

Lemma late_report_not_within : ¬ marker_within SNIFF late_report.
Proof. apply isStudyReport_undefined. by vm_compute. Qed.

Lemma study_report_loaded_directly_witness :
  (action (P:=posix) (sample_env early_report) "report.json" no_options =
     ([EvAccess "report.json" true] ++ [EvSniff "report.json"; EvRequire "report.json"]
        ++ (res ← render (P:=posix) (sample_env early_report) sample_study no_options;
            emit (EvConsoleLog res)).1,
      (res ← render (P:=posix) (sample_env early_report) sample_study no_options;
       emit (EvConsoleLog res)).2) ∧
   ¬ calls_studyCrawl
       (action (P:=posix) (sample_env early_report) "report.json" no_options).1) ∧
  (EvStudyCrawl "report.json" {| include := None; trResults := None |}
     ∈ (action (P:=posix) (sample_env crawl_report) "report.json" no_options).1 ∧
   ∀ file, EvRequire file
     ∉ (action (P:=posix) (sample_env crawl_report) "report.json" no_options).1).
Proof.
  split.
  - apply (study_report_loaded_directly (P:=posix) (sample_env early_report)
             "report.json" no_options [EvAccess "report.json" true]
             "report.json" None early_report);
      [reflexivity | reflexivity | reflexivity | apply early_report_within
      | reflexivity | reflexivity].
  - apply (study_report_loaded_directly (P:=posix) (sample_env crawl_report)
             "report.json" no_options [EvAccess "report.json" true]
             "report.json" None crawl_report);
      [reflexivity | reflexivity | reflexivity | by vm_compute].
Defined.

(** C1 as stated fails: the text of [late_report] matches the discriminator
    pattern, but past the first 1024 bytes; the run does not load the file and
    calls [studyCrawl]. *)
Lemma late_discriminator_reanalysed :
  content_matches late_report = true ∧
  action (P:=posix) (sample_env late_report) "report.json" no_options =
    ([EvAccess "report.json" true; EvSniff "report.json";
      EvStudyCrawl "report.json" {| include := None; trResults := None |};
      EvConsoleLog "{}"], Val tt) ∧
  calls_studyCrawl
    (action (P:=posix) (sample_env late_report) "report.json" no_options).1.
Proof.
  split_and!; [by vm_compute | by vm_compute |].
  exists "report.json", {| include := None; trResults := None |}.
  vm_compute. apply elem_of_cons. right. apply elem_of_cons. right.
  apply elem_of_cons. by left.
Qed.

(** C8: the sniffing sees the first 1024 bytes only.  A file in which the
    discriminator ends within the first 1024 bytes is a study report; for any
    other file, whatever comes after, [isStudyReport] returns [undefined] and
    the command hands the file to [studyCrawl]. *)
Theorem sniff_reads_first_1024_bytes (content : list byte) :
  (marker_within 1024 content → isStudyReport (ReadBytes content) = JBool true) ∧
  (¬ marker_within 1024 content →
   isStudyReport (ReadBytes content) = JUndefined ∧
   ∀ env edReport trReport options,
     fs_open env edReport = Some (ReadBytes content) →
     load_study env edReport trReport options =
       let studyOptions := {| include := spec options; trResults := trReport |} in
       ([EvSniff edReport; EvStudyCrawl edReport studyOptions],
        match studyCrawl env edReport studyOptions with
        | Some study => Val study
        | None => Halted Uncaught
        end)).
Proof.
  split.
  - apply isStudyReport_true.
  - intros Hm. split; [by apply isStudyReport_undefined|].
    intros env edReport trReport options Hopen.
    by apply (load_study_not_sniffed env edReport trReport options content).
Qed.

Lemma sniff_reads_first_1024_bytes_witness :
  isStudyReport (ReadBytes early_report) = JBool true ∧
  isStudyReport (ReadBytes late_report) = JUndefined ∧
  load_study (sample_env late_report) "report.json" None no_options =
    ([EvSniff "report.json";
      EvStudyCrawl "report.json" {| include := None; trResults := None |}],
     Val sample_study).
Proof.
  split_and!.
  - apply (sniff_reads_first_1024_bytes early_report), early_report_within.
  - apply (sniff_reads_first_1024_bytes late_report), late_report_not_within.
  - apply (proj2 (sniff_reads_first_1024_bytes late_report) late_report_not_within).
    reflexivity.
Defined.


(** ** The diff *)

(** C6: a diff computed with [onlyNew] has an empty [removed] list in every
    entry, and the command hands the [--onlynew] flag to [generateReport]
    unchanged when a diff is requested. *)
Theorem onlyNew_suppresses_removed (reference candidate : StudyResult) :
  Forall (λ entry, removed entry.2 = []) (Diff reference candidate true) ∧
  ∀ (P : PathModule) env study options,
    str_truthy (diff options) = true →
    render env study options =
      try_call
        (EvGenerateReport study
           (DiffDepOptions (dep options) true (diff options) (onlynew options)))
        (generateReport env study
           (DiffDepOptions (dep options) true (diff options) (onlynew options))).
Proof.
  split.
  - unfold Diff. apply Forall_app. split; apply Forall_fmap, Forall_forall;
      by intros [k l] _.
  - intros P env study options Hdiff. unfold render. by rewrite Hdiff.
Qed.

Lemma onlyNew_suppresses_removed_witness :
  Forall (λ entry, removed entry.2 = [])
         (Diff sample_reference sample_candidate true) ∧
  render (P:=posix) (sample_env early_report) sample_study diff_options =
    try_call
      (EvGenerateReport sample_study
         (DiffDepOptions false true (Some "reference.json") true))
      (generateReport (sample_env early_report) sample_study
         (DiffDepOptions false true (Some "reference.json") true)).
Proof.
  split.
  - apply (onlyNew_suppresses_removed sample_reference sample_candidate).
  - apply (proj2 (onlyNew_suppresses_removed sample_reference sample_candidate)
             posix (sample_env early_report) sample_study diff_options).
    reflexivity.
Defined.

(** ** The issue-filing script *)

Lemma mapM_as_string items links :
  mapM as_string items = Some links ↔ items = JString <$> links.
Proof.
  rewrite mapM_Some. split.
  - induction 1 as [|v s items links Hv _ IH]; [done|].
    by destruct v; simplify_eq/=.
  - intros ->. induction links; by constructor.
Qed.

Lemma filter_brokenLinks_Some field links :
  filter_brokenLinks field = Some links →
  (field = JUndefined ∨ field = JNull) ∧ links = [] ∨
  ∃ all, field = JArray (JString <$> all) ∧
         links = List.filter (λ u, negb (matches_TR u)) all.
Proof.
  destruct field; cbn; intros H; simplify_eq; eauto.
  destruct (mapM as_string items) as [all|] eqn:E; simplify_eq/=.
  right. exists all. split; [|done]. f_equal. by apply mapM_as_string.
Qed.

Lemma filter_brokenLinks_strings all :
  filter_brokenLinks (JArray (JString <$> all)) =
    Some (List.filter (λ u, negb (matches_TR u)) all).
Proof.
  cbn. by rewrite (proj2 (mapM_as_string (JString <$> all) all) eq_refl).
Qed.

Lemma not_mutation_apply_events {host : Host} w t :
  Forall (λ e, is_mutation e = false) t → apply_events w t = w.
Proof.
  unfold apply_events. induction 1 as [|e t He _ IH]; [done|].
  cbn [foldl]. by destruct e.
Qed.

Lemma get_field_total v name x name' :
  get_field v name = Some x → is_Some (get_field v name').
Proof. destruct v; cbn; intros; by simplify_eq. Qed.

Lemma get_field_None v name name' x :
  get_field v name = Some x → get_field v name' = None → False.
Proof. destruct v; cbn; intros; by simplify_eq. Qed.

(** Case analysis on a run of the callback, in the order of the script: on
    what it reads, on what [fs.stat] answers and on the fate of its calls. *)
Ltac run_step := cbn [mbind run_bind mret run_ret app negb].

Ltac read_field name :=
  try match goal with
      | |- context [get_field ?v name] =>
        let E := fresh "Hget" in
        destruct (get_field v name) eqn:E;
        [|try (exfalso; eapply get_field_None; eassumption)]; run_step
      end.

Ltac convert_field name :=
  try match goal with
      | H : get_field _ name = Some ?v |- context [match to_string ?v with _ => _ end] =>
        let E := fresh "Hconv" in destruct (to_string v) eqn:E; run_step
      end.

Ltac exec_step n :=
  try match goal with
      | |- context [exec_returns ?fate n] =>
        let E := fresh "Hexec" in destruct (exec_returns fate n) eqn:E; run_step
      end.

Ltac callback_cases :=
  unfold issue_callback, execSync, or_throw, emit, halt;
  read_field "brokenLinks";
  read_field "shortname"; read_field "repo"; read_field "title";
  read_field "crawled";
  try match goal with
      | |- context [match filter_brokenLinks ?field with _ => _ end] =>
        let E := fresh "Hlinks" in
        destruct (filter_brokenLinks field) eqn:E; run_step
      end;
  try match goal with
      | |- context [bool_decide (?links ≠ [])] =>
        let E := fresh "Hne" in
        destruct (decide (links ≠ [])) as [E|E];
        [rewrite (bool_decide_true _ E) | rewrite (bool_decide_false _ E)];
        run_step
      end;
  convert_field "shortname";
  try match goal with
      | |- context [stat_answers ?fate] =>
        let E := fresh "Hanswers" in
        destruct (stat_answers fate) eqn:E; run_step
      end;
  try match goal with
      | |- context [match ?stat (issueFilename ?sn) with _ => _ end] =>
        let E := fresh "Hstat" in
        destruct (stat (issueFilename sn)) eqn:E; run_step
      end;
  try match goal with
      | |- context [bool_decide (@nil JSValue ≠ [])] =>
        rewrite (bool_decide_false (@nil JSValue ≠ [])) by (by intros []);
        run_step
      end;
  convert_field "repo"; convert_field "title"; convert_field "crawled";
  try match goal with
      | |- context [match write_fate ?fate with _ => _ end] =>
        let E := fresh "Hwrite" in
        destruct (write_fate fate) as [| |[|]] eqn:E; run_step
      end;
  exec_step 0%nat; exec_step 1%nat; exec_step 2%nat; exec_step 3%nat.

Ltac in_trace H :=
  repeat (apply elem_of_cons in H as [H|H]; [try done|]);
  try (by apply elem_of_nil in H).

Section Callback.
Context {P : PathModule}.

(** What the callback writes: the file of the specification, with the issue
    text over what it read, after [fs.stat] found no such file. *)
Lemma written_by_callback currentBranch stat fate specResult file data :
  EvWriteFile file data ∈ (issue_callback currentBranch stat fate specResult).1 →
  ∃ field links shortname repo title crawled,
    get_field specResult "brokenLinks" = Some field ∧
    filter_brokenLinks field = Some links ∧ links ≠ [] ∧
    get_field specResult "shortname" = Some shortname ∧
    get_field specResult "repo" = Some repo ∧
    get_field specResult "title" = Some title ∧
    get_field specResult "crawled" = Some crawled ∧
    is_Some (to_string shortname) ∧ is_Some (to_string repo) ∧
    is_Some (to_string title) ∧ is_Some (to_string crawled) ∧
    stat_answers fate = true ∧ stat (issueFilename shortname) = StatError ∧
    file = issueFilename shortname ∧
    data = issueReport (to_str repo) (to_str title) (to_str crawled) links.
Proof.
  destruct (issue_callback _ _ _ _) as [trace result] eqn:Hrun.
  revert Hrun. callback_cases; intros [= <- <-] Hin; cbn [fst] in Hin;
    in_trace Hin; simplify_eq; eexists _, _, _, _, _, _; by split_and!.
Qed.

(** A callback that finds nothing to report, or finds the issue file, only
    probes and logs. *)
Lemma skipped_by_callback currentBranch stat fate specResult shortname :
  get_field specResult "shortname" = Some shortname →
  stat (issueFilename shortname) ≠ StatError →
  Forall (λ e, is_mutation e = false)
         (issue_callback currentBranch stat fate specResult).1.
Proof.
  intros Hs Hstat.
  destruct (issue_callback _ _ _ _) as [trace result] eqn:Hrun.
  revert Hrun. callback_cases; intros [= <- <-]; simplify_eq;
    by repeat constructor.
Qed.

(** The callback asks [fs.stat] about one file only. *)
Lemma callback_stat_ext currentBranch stat stat' fate specResult shortname :
  get_field specResult "shortname" = Some shortname →
  stat (issueFilename shortname) = stat' (issueFilename shortname) →
  issue_callback currentBranch stat fate specResult =
  issue_callback currentBranch stat' fate specResult.
Proof.
  intros Hs Hstat. unfold issue_callback.
  destruct (get_field specResult "brokenLinks") as [field|]; [|done].
  cbn [or_throw mbind run_bind mret run_ret app].
  destruct (filter_brokenLinks field) as [links|]; [|done].
  cbn [or_throw mbind run_bind mret run_ret app].
  case_bool_decide; [|done]. rewrite Hs.
  cbn [or_throw mbind run_bind mret run_ret app].
  by rewrite Hstat.
Qed.
End Callback.

(** C4: a link that matches [w3.org/TR/] is never in the list an issue
    reports.  Whatever file the callback writes, its text is the issue text
    over the broken links of the specification that do not match, in their
    order, and a matching link is not among them. *)
Theorem TR_links_never_reported {P : PathModule} (currentBranch : string)
    (stat : string → StatResult) (fate : Fate) (specResult : JSValue)
    (file data u : string) :
  EvWriteFile file data
    ∈ (issue_callback currentBranch stat fate specResult).1 →
  matches_TR u = true →
  ∃ all repo title crawled,
    get_field specResult "brokenLinks" = Some (JArray (JString <$> all)) ∧
    data = issueReport repo title crawled
             (List.filter (λ u, negb (matches_TR u)) all) ∧
    u ∉ List.filter (λ u, negb (matches_TR u)) all.
Proof.
  intros Hin Hu.
  apply written_by_callback in Hin
    as (field & links & sn & repo & title & crawled & Hf & Hl & Hne & _ & _ & _
        & _ & _ & _ & _ & _ & _ & _ & _ & ->).
  apply filter_brokenLinks_Some in Hl as [[_ ->]|(all & -> & ->)]; [done|].
  exists all, (to_str repo), (to_str title), (to_str crawled).
  split_and!; [done..|].
  rewrite list_elem_of_In, filter_In. intros [_ Hn]. by rewrite Hu in Hn.
Qed.

Lemma TR_links_never_reported_witness :
  ∃ all repo title crawled,
    get_field sample_entry "brokenLinks" = Some (JArray (JString <$> all)) ∧
    issueReport "https://github.com/whatwg/dom" "DOM Standard"
      "https://dom.spec.whatwg.org/"
      ["https://w3c.github.io/DOM-Parsing/#dfn-createcontextualfragment-fragment"]
    = issueReport repo title crawled
        (List.filter (λ u, negb (matches_TR u)) all) ∧
    "https://www.w3.org/TR/SVG11/#unknown"
      ∉ List.filter (λ u, negb (matches_TR u)) all.
Proof.
  apply (TR_links_never_reported (P:=posix) "main" (λ _, StatError) steady
           sample_entry "issues/dom-brokenlinks.md").
  - vm_compute. apply elem_of_cons. right. apply elem_of_cons. by left.
  - reflexivity.
Defined.

Lemma aggregate_exposes analysed key produced :
  (key, produced) ∈ aggregate analysed →
  ∃ r anomalies, (r, anomalies) ∈ analysed ∧ key = crawl_shortname r ∧
                 produced = study_value (entry_of r anomalies) ∧
                 exposes produced (entry_of r anomalies).
Proof.
  unfold aggregate. intros ([r anomalies] & [= -> ->] & Hin)%list_elem_of_fmap.
  exists r, anomalies. by repeat split.
Qed.

(** C7 as stated fails: the fields it lists are not all the issue filer
    reads.  The study aggregated from the crawl record of [dom] is keyed by
    [dom] and its value exposes the title, the repository, the crawled URL
    and the anomaly lists; the filer reads [shortname] from the value, finds
    [undefined], and files the issue as [issues/undefined-brokenlinks.md] on
    the branch [undefined-brokenlinks].  On [sample_entry], which exposes the
    same fields and carries the shortname, it files under [dom]. *)
Lemma filer_reads_shortname_too :
  ∃ produced,
    sample_produced = [("dom", produced)] ∧
    exposes produced sample_exposed ∧ exposes sample_entry sample_exposed ∧
    get_field produced "shortname" = Some JUndefined ∧
    (issue_callback (P:=posix) "main" (λ _, StatError) steady produced).1 =
      [EvStat "issues/undefined-brokenlinks.md" StatError;
       EvWriteFile "issues/undefined-brokenlinks.md"
         (issueReport "https://github.com/whatwg/dom" "DOM Standard"
            "https://dom.spec.whatwg.org/"
            ["https://w3c.github.io/DOM-Parsing/#dfn-createcontextualfragment-fragment"]);
       EvExec "git checkout -b undefined-brokenlinks";
       EvExec "git add issues/undefined-brokenlinks.md";
       EvExec ("git commit -m " +:+
               quoted "File report on broken links found in DOM Standard");
       EvExec "git checkout main"] ∧
    (∃ data, EvWriteFile "issues/dom-brokenlinks.md" data
               ∈ (issue_callback (P:=posix) "main" (λ _, StatError) steady
                    sample_entry).1).
Proof.
  eexists. split; [reflexivity|]. split; [by repeat split|].
  split; [by repeat split|]. split; [reflexivity|]. split; [reflexivity|].
  eexists. vm_compute. apply elem_of_cons. right. apply elem_of_cons. by left.
Qed.

(** C7, amended.  Every entry of an aggregated study is keyed by the
    shortname of its crawl record and exposes [title], [repo], [crawled] and
    the anomaly lists as strings and arrays of target strings.  On a value
    that exposes them, whatever the issue filer writes is the issue text
    over the repository, the title, the crawled URL and the broken links
    outside [w3.org/TR/], read from these fields; the file, though, is named
    after a further field of the value, [shortname].  Reading the exposed
    fields never throws: the callback throws only when the shortname cannot
    be converted to a string, when the write is rejected or when a git
    command fails. *)
Theorem issue_reads_exposed_fields {P : PathModule}
    (analysed : list (CrawlRecord * list AnomalyRecord))
    (currentBranch : string) (stat : string → StatResult) (fate : Fate)
    (v : JSValue) (e : StudyEntry) :
  (∀ key produced,
     (key, produced) ∈ aggregate analysed →
     ∃ r anomalies, (r, anomalies) ∈ analysed ∧ key = crawl_shortname r ∧
                    exposes produced (entry_of r anomalies)) ∧
  (exposes v e →
   ∃ shortname,
     get_field v "shortname" = Some shortname ∧
     (∀ file data,
        EvWriteFile file data ∈ (issue_callback currentBranch stat fate v).1 →
        file = path_join "issues/"
                 ((to_str shortname +:+ "-brokenlinks") +:+ ".md") ∧
        data =
          NL +:+ "Repo: " +:+ entry_repo e +:+ NL +:+
          "Tracked: N/A" +:+ NL +:+
          "Issue title: Broken references in " +:+ entry_title e +:+ NL +:+
          "---" +:+ NL +:+
          "While crawling [" +:+ entry_title e +:+ "](" +:+ entry_crawled e +:+
          "), the following links to other specifications were detected as pointing to non-existing anchors, which should be fixed:"
          +:+ NL +:+
          String.concat NL
            ((λ link, "* [ ] " +:+ link)
               <$> List.filter (λ u, negb (matches_TR u)) (entry_brokenLinks e))
          +:+ NL +:+ NL +:+
          "This issue was detected and reported semi-automatically by [strudy](https://github.com/w3c/strudy/) based on data collected in [webref](https://github.com/w3c/webref/).") ∧
     ((issue_callback currentBranch stat fate v).2 = Halted Uncaught →
      to_string shortname = None ∨ write_fate fate = WriteRejects ∨
      ∃ n, (n < 4)%nat ∧ exec_returns fate n = false)).
Proof.
  split.
  { intros key produced Hin.
    destruct (aggregate_exposes _ _ _ Hin) as (r & anomalies & ? & ? & _ & ?).
    by exists r, anomalies. }
  intros (Ht & Hr & Hc & Hb & _ & _).
  destruct (get_field_total _ _ _ "shortname" Ht) as [shortname Hs].
  exists shortname. split; [done|]. split.
  - intros file data Hin.
    apply written_by_callback in Hin
      as (field & links & sn & repo & title & crawled & Hf & Hl & _ & ? & ? & ?
          & ? & _ & _ & _ & _ & _ & _ & -> & ->).
    simplify_eq. rewrite filter_brokenLinks_strings in Hl. by simplify_eq.
  - destruct (issue_callback _ _ _ _) as [trace result] eqn:Hrun.
    revert Hrun. callback_cases; intros [= <- <-] [=]; simplify_eq;
      try match goal with
          | H : filter_brokenLinks _ = _ |- _ =>
            rewrite filter_brokenLinks_strings in H
          end;
      simplify_eq/=;
      first [ by left
            | by right; left
            | right; right; eexists; split; [|eassumption]; lia ].
Qed.

Lemma issue_reads_exposed_fields_witness :
  ∃ shortname,
    get_field sample_entry "shortname" = Some shortname ∧
    (∀ file data,
       EvWriteFile file data
         ∈ (issue_callback (P:=posix) "main" (λ _, StatError) branch_exists
              sample_entry).1 →
       file = path_join (PathModule:=posix) "issues/"
                ((to_str shortname +:+ "-brokenlinks") +:+ ".md") ∧
       data =
         NL +:+ "Repo: " +:+ entry_repo sample_exposed +:+ NL +:+
         "Tracked: N/A" +:+ NL +:+
         "Issue title: Broken references in " +:+ entry_title sample_exposed
         +:+ NL +:+ "---" +:+ NL +:+
         "While crawling [" +:+ entry_title sample_exposed +:+ "](" +:+
         entry_crawled sample_exposed +:+
         "), the following links to other specifications were detected as pointing to non-existing anchors, which should be fixed:"
         +:+ NL +:+
         String.concat NL
           ((λ link, "* [ ] " +:+ link)
              <$> List.filter (λ u, negb (matches_TR u))
                    (entry_brokenLinks sample_exposed))
         +:+ NL +:+ NL +:+
         "This issue was detected and reported semi-automatically by [strudy](https://github.com/w3c/strudy/) based on data collected in [webref](https://github.com/w3c/webref/).") ∧
    ((issue_callback (P:=posix) "main" (λ _, StatError) branch_exists
        sample_entry).2 = Halted Uncaught →
     to_string shortname = None ∨ write_fate branch_exists = WriteRejects ∨
     ∃ n, (n < 4)%nat ∧ exec_returns branch_exists n = false).
Proof.
  apply (proj2 (issue_reads_exposed_fields (P:=posix)
                  [(sample_crawl, sample_anomalies)] "main" (λ _, StatError)
                  branch_exists sample_entry sample_exposed)).
  by repeat split.
Defined.

(** C9: the pass starts a callback for the first two keys only, in key
    order; entries after the second change nothing, whatever they hold. *)
Theorem only_first_two_specifications {P : PathModule} (currentBranch : string)
    (stat : string → StatResult) (fates : nat → Fate)
    (first second : string * JSValue) (more : list (string * JSValue)) :
  issue_pass currentBranch stat fates (first :: second :: more) =
    [issue_callback currentBranch stat (fates 0%nat) first.2;
     issue_callback currentBranch stat (fates 1%nat)
       (if String.eqb second.1 first.1 then first.2 else second.2)] ∧
  issue_pass currentBranch stat fates (first :: second :: more) =
    issue_pass currentBranch stat fates [first; second].
Proof.
  destruct first as [k1 v1], second as [k2 v2]. unfold issue_pass.
  cbn. rewrite !String.eqb_refl. by destruct (String.eqb k2 k1).
Qed.

(** C10: a specification without broken links to report, or whose issue
    file is already there, is left alone: the callback writes no file and
    runs no command, so the files and the commands of the world are what they
    were. *)
Theorem skipped_specification_unchanged {P : PathModule} {host : Host}
    (currentBranch : string) (w : World) (fate : Fate) (specResult : JSValue) :
  (∀ field,
     get_field specResult "brokenLinks" = Some field →
     filter_brokenLinks field = Some [] →
     issue_callback currentBranch (stat_world w) fate specResult
       = ([], Val tt)) ∧
  (∀ shortname,
     get_field specResult "shortname" = Some shortname →
     is_Some (files w !! issueFilename shortname) →
     Forall (λ e, is_mutation e = false)
            (issue_callback currentBranch (stat_world w) fate specResult).1 ∧
     apply_events w
       (issue_callback currentBranch (stat_world w) fate specResult).1 = w).
Proof.
  split.
  - intros field Hf Hl. unfold issue_callback, or_throw. rewrite Hf.
    cbn [mbind run_bind mret run_ret app]. by rewrite Hl.
  - intros shortname Hs [node Hnode].
    assert (Forall (λ e, is_mutation e = false)
              (issue_callback currentBranch (stat_world w) fate specResult).1)
      as Hm.
    { apply (skipped_by_callback _ _ _ _ shortname Hs).
      unfold stat_world. rewrite Hnode. by destruct node. }
    split; [done | by apply not_mutation_apply_events].
Qed.

Lemma skipped_specification_unchanged_witness :
  issue_callback (P:=posix) "main" (stat_world empty_world) steady quiet_entry
    = ([], Val tt) ∧
  Forall (λ e, is_mutation e = false)
         (issue_callback (P:=posix) "main" (stat_world filed_world) steady
            sample_entry).1 ∧
  apply_events (host:=git_host) filed_world
    (issue_callback (P:=posix) "main" (stat_world filed_world) steady
       sample_entry).1
  = filed_world.
Proof.
  split.
  - by apply (proj1 (skipped_specification_unchanged (P:=posix) (host:=git_host)
                       "main" empty_world steady quiet_entry)
                (JArray [JString "https://www.w3.org/TR/css-color-4/#x"])).
  - apply (proj2 (skipped_specification_unchanged (P:=posix) (host:=git_host)
                    "main" filed_world steady sample_entry) (JString "dom")).
    + reflexivity.
    + by exists (Regular "Repo: ...").
Defined.

(** ** Further properties of the command *)

#[local] Set Warnings "-clear-no-such-hyp".

Lemma load_study_shape env edReport trReport options :
  ∃ t r, load_study env edReport trReport options = (EvSniff edReport :: t, r) ∧
         Forall (λ e, is_console e = false) t ∧ no_exit r.
Proof.
  unfold load_study, try_call, emit.
  destruct (fs_open env edReport) as [opened|]; cbn [mbind run_bind mret run_ret app halt];
    [|by eexists [], _].
  destruct (truthy (isStudyReport opened)); cbn [mbind run_bind mret run_ret app halt].
  - destruct (requireFromWorkingDirectory env edReport) as [v|];
      cbn [mbind run_bind mret run_ret app halt];
      [|eexists [_], _; split; [done|]; split; [by repeat constructor|done]].
    destruct (truthy v); cbn [mbind run_bind mret run_ret app halt].
    + eexists [_], _. split; [done|]. split; [by repeat constructor|done].
    + destruct (studyCrawl env edReport _);
        (eexists [_; _], _; split; [done|]; split; [by repeat constructor|done]).
  - cbn [truthy]. cbn [mbind run_bind mret run_ret app halt].
    destruct (studyCrawl env edReport _);
      (eexists [_], _; split; [done|]; split; [by repeat constructor|done]).
Qed.

Lemma render_shape {P : PathModule} env study options :
  ∃ t r, render env study options = (t, r) ∧
         Forall (λ e, is_console e = false) t ∧ no_exit r.
Proof.
  unfold render, try_call, emit.
  destruct (str_truthy (diff options) || dep options).
  { destruct (generateReport env study _);
      (eexists [_], _; split; [done|]; split; [by repeat constructor|done]). }
  destruct (str_truthy (format options) && _);
    [|eexists [], _; split; [done|]; split; [by repeat constructor|done]].
  destruct (generateReport env study _); cbn [mbind run_bind mret run_ret app halt];
    [|eexists [_], _; split; [done|]; split; [by repeat constructor|done]].
  destruct (is_format "html" (format options));
    [|eexists [_], _; split; [done|]; split; [by repeat constructor|done]].
  destruct (pandoc env _ _);
    (eexists [_; _], _; split; [done|]; split; [by repeat constructor|done]).
Qed.

Lemma study_and_print_shape {P : PathModule} env edReport trReport options :
  (∃ t, study_and_print env edReport trReport options
          = (EvSniff edReport :: t, Halted Uncaught) ∧
        Forall (λ e, is_console e = false) t) ∨
  (∃ t res, study_and_print env edReport trReport options
              = (EvSniff edReport :: t ++ [EvConsoleLog res], Val tt) ∧
            Forall (λ e, is_console e = false) t).
Proof.
  unfold study_and_print.
  destruct (load_study_shape env edReport trReport options) as (t1 & r1 & -> & H1 & E1).
  destruct r1 as [study|[c| |]]; [|done|by left; exists t1|done].
  rewrite run_bind_val.
  destruct (render_shape env study options) as (t2 & r2 & -> & H2 & E2).
  destruct r2 as [res|[c| |]]; [|done| |done].
  - right. exists (t1 ++ t2), res. rewrite run_bind_val. cbn.
    split; [by rewrite <-(assoc_L (++))|]. by apply Forall_app.
  - left. exists (t1 ++ t2). split; [done|]. by apply Forall_app.
Qed.

Lemma probe_not_console (t : list Event) :
  Forall (λ e, is_probe e = true) t → Forall (λ e, is_console e = false) t.
Proof. intros Ht. apply (Forall_impl _ _ _ Ht). by intros []. Qed.

(** Every run ends in one of three ways: a single message on the error
    stream and exit code 2, after nothing but probes of the file system; an
    exception, with nothing on the console; or the result printed once, as
    the last event.  No run prints both an error and a result, and 2 is the
    only exit code. *)
Theorem action_outcomes {P : PathModule} (env : Env) (report : string)
    (options : Options) :
  (∃ probes msg,
     action env report options = (probes ++ [EvConsoleError msg], Halted (Exit 2)) ∧
     Forall (λ e, is_probe e = true) probes) ∨
  (∃ t, action env report options = (t, Halted Uncaught) ∧
        Forall (λ e, is_console e = false) t) ∨
  (∃ t res, action env report options = (t ++ [EvConsoleLog res], Val tt) ∧
            Forall (λ e, is_console e = false) t).
Proof.
  destruct (options_ok options) eqn:Hok.
  2: { left. destruct (action_bad_options env report options Hok) as [msg ->].
       by exists [], msg. }
  destruct (locate_reports_trace env report options)
    as (probes & Hp & [(trReport & Hloc & _)|(msg & Hloc)]).
  2: { left. exists probes, msg. split; [|done].
       unfold action. by rewrite (check_options_ok _ Hok), Hloc. }
  rewrite (action_located env report options _ _ _ Hok Hloc).
  right.
  destruct (study_and_print_shape env (edReport_of env report) trReport options)
    as [(t & -> & Ht)|(t & res & -> & Ht)]; cbn [fst snd].
  - left. eexists. split; [done|].
    apply Forall_app. split; [by apply probe_not_console|by constructor].
  - right. exists (probes ++ EvSniff (edReport_of env report) :: t), res.
    split; [by rewrite <-(assoc_L (++))|].
    apply Forall_app. split; [by apply probe_not_console|by constructor].
Qed.

Lemma check_options_iff options :
  check_options options = ([], Val tt) ↔ options_ok options = true.
Proof.
  split; [|apply check_options_ok].
  destruct (options_ok options) eqn:Hok; [done|].
  destruct (check_options_fail options Hok) as [msg ->]. done.
Qed.

Lemma accepted_options_format options :
  check_options options = ([], Val tt) →
  str_truthy (format options) = true →
  format options = Some "json" ∨ format options = Some "markdown" ∨
  format options = Some "html".
Proof.
  rewrite check_options_iff. unfold options_ok, includes.
  intros Hok Hf. rewrite Hf in Hok.
  destruct (format options) as [f|]; [|done].
  case_bool_decide as Hin; [|done].
  repeat (apply elem_of_cons in Hin as [->|Hin]; [by eauto|]).
  by apply elem_of_nil in Hin.
Qed.

(** The option sets the command accepts: a format, when given, is one of the
    three; a diff goes with no format or markdown, and with neither
    [--perissue] nor [--dep]; [--perissue] needs markdown or html. *)
Theorem accepted_options (options : Options) :
  check_options options = ([], Val tt) ↔
  (str_truthy (format options) = true →
   format options = Some "json" ∨ format options = Some "markdown" ∨
   format options = Some "html") ∧
  (str_truthy (diff options) = true →
   str_truthy (format options) = false ∨ format options = Some "markdown") ∧
  (str_truthy (diff options) = true →
   perissue options = false ∧ dep options = false) ∧
  (perissue options = true →
   format options = Some "markdown" ∨ format options = Some "html").
Proof.
  rewrite check_options_iff. unfold options_ok, includes, is_format.
  destruct options as [fmt df sp dp on pi t]; cbn [format diff dep perissue].
  assert (∀ f : string,
            (bool_decide (f ∈ ["json"; "markdown"; "html"])
             = bool_decide (Some f = Some "json")
               || bool_decide (Some f = Some "markdown")
               || bool_decide (Some f = Some "html")) ∧
            (bool_decide (f ∈ ["markdown"; "html"])
             = bool_decide (Some f = Some "markdown")
               || bool_decide (Some f = Some "html"))) as Hin.
  { intros f. split; repeat case_bool_decide; simplify_eq; try done;
      exfalso; set_solver. }
  destruct fmt as [f|]; cbn [str_truthy].
  - destruct (Hin f) as [-> ->].
    destruct (String.eqb f EmptyString) eqn:Hf;
      [apply String.eqb_eq in Hf as ->|];
      destruct (str_truthy df), dp, pi; repeat case_bool_decide; simplify_eq;
      cbn [negb andb orb]; intuition congruence.
  - destruct (str_truthy df), dp, pi; cbn [negb andb orb]; intuition congruence.
Qed.

(** A report that cannot be opened stops the run with an exception right
    after the attempt; a report that opens but cannot be read (a folder whose
    name ends in [.json]) is not a study report and goes to [studyCrawl]. *)
Theorem sniff_failures (env : Env) (edReport : string)
    (trReport : option string) (options : Options) :
  match fs_open env edReport with
  | None =>
    load_study env edReport trReport options = ([EvSniff edReport], Halted Uncaught)
  | Some ReadFails =>
    let studyOptions := {| include := spec options; trResults := trReport |} in
    load_study env edReport trReport options =
      ([EvSniff edReport; EvStudyCrawl edReport studyOptions],
       match studyCrawl env edReport studyOptions with
       | Some study => Val study
       | None => Halted Uncaught
       end)
  | Some (ReadBytes _) => True
  end.
Proof.
  unfold load_study, try_call, emit.
  destruct (fs_open env edReport) as [[|content]|]; [|done..].
  cbn. by destruct (studyCrawl env edReport _).
Qed.

(** The sniffing never takes a file for a study report unless the text of the
    file matches the pattern: neither the zero bytes that pad a short file
    nor the cut after byte 1024 create a match.  On a file of at most 1024
    bytes the sniffing and the match on the whole text agree. *)
Theorem sniff_sound (content : list byte) :
  (isStudyReport (ReadBytes content) = JBool true → content_matches content = true) ∧
  ((length content ≤ 1024)%nat →
   content_matches content = true → isStudyReport (ReadBytes content) = JBool true).
Proof.
  split.
  - intros Hs%isStudyReport_true. apply content_matches_within. by exists SNIFF.
  - intros Hlen (n & pre & m & post & w & -> & _ & Hw & Hm)%content_matches_within.
    apply isStudyReport_true. exists pre, m, post, w. split_and!; [done| |done..].
    rewrite !length_app in *. unfold SNIFF. lia.
Qed.

Lemma sniff_sound_witness :
  content_matches early_report = true ∧
  isStudyReport (ReadBytes early_report) = JBool true.
Proof.
  split.
  - apply (sniff_sound early_report). by vm_compute.
  - apply (sniff_sound early_report); [by apply Nat.leb_le | by vm_compute].
Defined.

(** What a successful location of the reports guarantees. *)
Lemma locate_reports_val {P : PathModule} env report options probes edReport trReport :
  locate_reports env report options = (probes, Val (edReport, trReport)) →
  edReport = edReport_of env report ∧
  EvAccess edReport true ∈ probes ∧
  Forall (λ e, is_probe e = true) probes ∧
  (str_truthy trReport = true →
   ∃ file, trReport = Some file ∧ EvAccess file true ∈ probes) ∧
  (str_truthy (tr options) = true →
   ∃ p, tr options = Some p ∧
        trReport = Some (if endsWith p ".json" then p else path_join p "index.json")) ∧
  (str_truthy (tr options) = false → str_truthy trReport = true →
   endsWith report ".json" = false ∧
   fs_access env (path_join report "ed") = true ∧
   fs_access env (path_join report "tr") = true ∧
   trReport = Some (if endsWith (path_join report "tr") ".json"
                    then path_join report "tr"
                    else path_join (path_join report "tr") "index.json")).
Proof.
  intros H.
  unfold locate_reports, resolve_ed, edReport_of, exists_, when, fail, emit,
    process_exit, halt in *.
  destruct (tr options) as [p|] eqn:Htr; cbn [str_truthy] in *.
  all: repeat (first
            [ match type of H with
              | context [if ?c then _ else _] => destruct c eqn:?
              end
            | match type of H with
              | context [match ?c with Some _ => _ | None => _ end] =>
                destruct c eqn:?
              end ]; cbn in H).
  all: simplify_eq.
  all: cbn [str_truthy] in *.
  all: repeat match goal with
              | H : negb _ = false |- _ => apply negb_false_iff in H
              | H : negb _ = true |- _ => apply negb_true_iff in H
              end.
  all: repeat match goal with
              | H : ?x = true |- context [?x] => rewrite H
              | H : ?x = false |- context [?x] => rewrite H
              end.
  all: cbn [negb].
  all: split_and!;
    [ done
    | set_solver
    | by repeat constructor
    | intros; simplify_eq; try (eexists; split; [done|set_solver])
    | intros; simplify_eq;
      try (eexists; split; [done|]);
      repeat match goal with
             | H : ?x = true |- context [?x] => rewrite H
             | H : ?x = false |- context [?x] => rewrite H
             end; done
    | intros; simplify_eq; try done ].
Qed.

(** The steps between the location of the reports and the output. *)
Lemma load_study_mid env edReport trReport options :
  let studyOptions := {| include := spec options; trResults := trReport |} in
  ∃ mid r,
    load_study env edReport trReport options = (EvSniff edReport :: mid, r) ∧
    no_exit r ∧
    (mid = [] ∨ mid = [EvRequire edReport] ∨
     mid = [EvRequire edReport; EvStudyCrawl edReport studyOptions] ∨
     mid = [EvStudyCrawl edReport studyOptions]).
Proof.
  unfold load_study, try_call, emit.
  destruct (fs_open env edReport) as [opened|];
    cbn [mbind run_bind mret run_ret app halt].
  2: { eexists [], _. split_and!; [done|done|eauto 6]. }
  destruct (truthy (isStudyReport opened));
    cbn [mbind run_bind mret run_ret app halt truthy].
  - destruct (requireFromWorkingDirectory env edReport) as [v|];
      cbn [mbind run_bind mret run_ret app halt].
    2: { eexists [_], _. split_and!; [done|done|eauto 6]. }
    destruct (truthy v); cbn [mbind run_bind mret run_ret app halt].
    { eexists [_], _. split_and!; [done|done|eauto 6]. }
    destruct (studyCrawl env edReport _);
      (eexists [_; _], _; split_and!; [done|done|eauto 6]).
  - destruct (studyCrawl env edReport _);
      (eexists [_], _; split_and!; [done|done|eauto 6]).
Qed.

Lemma action_trace_parts {P : PathModule} env report options probes edReport trReport :
  options_ok options = true →
  locate_reports env report options = (probes, Val (edReport, trReport)) →
  let studyOptions := {| include := spec options; trResults := trReport |} in
  ∃ mid rest,
    (action env report options).1 = probes ++ EvSniff edReport :: mid ++ rest ∧
    (mid = [] ∨ mid = [EvRequire edReport] ∨
     mid = [EvRequire edReport; EvStudyCrawl edReport studyOptions] ∨
     mid = [EvStudyCrawl edReport studyOptions]) ∧
    (rest = [] ∨
     ∃ study, rest = (res ← render env study options; emit (EvConsoleLog res)).1).
Proof.
  intros Hok Hloc studyOptions.
  rewrite (action_located env report options _ _ _ Hok Hloc). cbn [fst].
  unfold study_and_print.
  destruct (load_study_mid env edReport trReport options) as (mid & r & -> & Hr & Hmid).
  exists mid. destruct r as [study|h].
  - rewrite run_bind_val. cbn [fst]. eexists. split; [done|]. split; [done|].
    right. by exists study.
  - exists []. rewrite run_bind_halted. cbn [fst]. rewrite app_nil_r. eauto.
Qed.

(** When the reports are located, the run sniffs the report once, then
    loads it at most once, then calls [studyCrawl] at most once, always on
    the located report and with the [--spec] list and the located TR report;
    whatever follows is generating and printing. *)
Theorem analysis_steps {P : PathModule} (env : Env) (report : string)
    (options : Options) (probes : list Event) (edReport : string)
    (trReport : option string) :
  options_ok options = true →
  locate_reports env report options = (probes, Val (edReport, trReport)) →
  let studyOptions := {| include := spec options; trResults := trReport |} in
  ∃ mid rest,
    (action env report options).1 = probes ++ EvSniff edReport :: mid ++ rest ∧
    (mid = [] ∨ mid = [EvRequire edReport] ∨
     mid = [EvRequire edReport; EvStudyCrawl edReport studyOptions] ∨
     mid = [EvStudyCrawl edReport studyOptions]) ∧
    Forall (λ e, is_output e = true) rest.
Proof.
  intros Hok Hloc studyOptions.
  destruct (action_trace_parts env report options _ _ _ Hok Hloc)
    as (mid & rest & Heq & Hmid & Hrest).
  exists mid, rest. split_and!; [done..|].
  destruct Hrest as [->|[study ->]]; [constructor | apply render_trace].
Qed.

Lemma analysis_steps_witness :
  ∃ mid rest,
    (action (P:=posix) (sample_env early_report) "report.json" no_options).1
      = [EvAccess "report.json" true] ++ EvSniff "report.json" :: mid ++ rest ∧
    (mid = [] ∨ mid = [EvRequire "report.json"] ∨
     mid = [EvRequire "report.json";
            EvStudyCrawl "report.json" {| include := None; trResults := None |}] ∨
     mid = [EvStudyCrawl "report.json" {| include := None; trResults := None |}]) ∧
    Forall (λ e, is_output e = true) rest.
Proof.
  apply (analysis_steps (P:=posix) (sample_env early_report) "report.json"
           no_options [EvAccess "report.json" true] "report.json" None);
    reflexivity.
Defined.

Lemma render_pandoc {P : PathModule} env study options markdown args :
  EvPandoc markdown args
    ∈ (res ← render env study options; emit (EvConsoleLog res)).1 →
  format options = Some "html" ∧
  str_truthy (diff options) = false ∧ dep options = false ∧
  generateReport env study (FormatOptions (negb (perissue options)))
    = Some markdown ∧
  args = PANDOC_ARGS
           (path_join (path_join (path_join (dirname env) "src") "templates")
              ("report" +:+ (if perissue options then "-perissue" else EmptyString)
               +:+ "-template.html")).
Proof.
  unfold render, try_call, emit.
  destruct (str_truthy (diff options)), (dep options); cbn [orb].
  1-3: destruct (generateReport env study _); cbn; intros Hin;
    repeat (apply elem_of_cons in Hin as [?|Hin]; [done|]);
    by apply elem_of_nil in Hin.
  destruct (str_truthy (format options) && _).
  2: { cbn. intros Hin. repeat (apply elem_of_cons in Hin as [?|Hin]; [done|]).
       by apply elem_of_nil in Hin. }
  destruct (generateReport env study _) as [md|];
    cbn [mbind run_bind mret run_ret app halt].
  2: { cbn. intros Hin. repeat (apply elem_of_cons in Hin as [?|Hin]; [done|]).
       by apply elem_of_nil in Hin. }
  unfold is_format. case_bool_decide as Hhtml.
  2: { cbn. intros Hin. repeat (apply elem_of_cons in Hin as [?|Hin]; [done|]).
       by apply elem_of_nil in Hin. }
  destruct (pandoc env md _); cbn; intros Hin;
    (apply elem_of_cons in Hin as [?|Hin]; [done|]);
    (apply elem_of_cons in Hin as [?|Hin]; [by simplify_eq|]);
    repeat (apply elem_of_cons in Hin as [?|Hin]; [done|]);
    by apply elem_of_nil in Hin.
Qed.

(** [pandoc] runs only for an HTML report: the format is [html], neither a
    diff nor a dependencies report is requested, the markdown it converts is
    what [generateReport] returned, and the template is the per-issue one
    exactly when [--perissue] is set. *)
Theorem pandoc_only_for_html {P : PathModule} (env : Env) (report : string)
    (options : Options) (markdown : string) (args : list string) :
  EvPandoc markdown args ∈ (action env report options).1 →
  format options = Some "html" ∧
  str_truthy (diff options) = false ∧ dep options = false ∧
  (∃ study,
     generateReport env study (FormatOptions (negb (perissue options)))
       = Some markdown) ∧
  args = PANDOC_ARGS
           (path_join (path_join (path_join (dirname env) "src") "templates")
              ("report" +:+ (if perissue options then "-perissue" else EmptyString)
               +:+ "-template.html")).
Proof.
  intros Hin.
  destruct (options_ok options) eqn:Hok.
  2: { destruct (action_bad_options env report options Hok) as [msg Heq].
       rewrite Heq in Hin. cbn in Hin.
       apply elem_of_cons in Hin as [?|Hin]; [done|]. by apply elem_of_nil in Hin. }
  destruct (locate_reports_trace env report options)
    as (probes & Hp & [(trReport & Hloc & _)|(msg & Hloc)]).
  2: { unfold action in Hin. rewrite (check_options_ok _ Hok), Hloc in Hin.
       cbn in Hin. apply elem_of_app in Hin as [Hin|Hin].
       - by apply (proj1 (Forall_forall _ _) Hp) in Hin.
       - apply elem_of_cons in Hin as [?|Hin]; [done|].
         by apply elem_of_nil in Hin. }
  destruct (action_trace_parts env report options _ _ _ Hok Hloc)
    as (mid & rest & Heq & Hmid & Hrest).
  rewrite Heq in Hin.
  apply elem_of_app in Hin as [Hin|Hin];
    [by apply (proj1 (Forall_forall _ _) Hp) in Hin|].
  apply elem_of_cons in Hin as [?|Hin]; [done|].
  apply elem_of_app in Hin as [Hin|Hin].
  { destruct Hmid as [-> | [-> | [-> | ->]]];
      repeat (apply elem_of_cons in Hin as [?|Hin]; [done|]);
      by apply elem_of_nil in Hin. }
  destruct Hrest as [->|[study ->]]; [by apply elem_of_nil in Hin|].
  apply render_pandoc in Hin as (? & ? & ? & ? & ?). eauto 10.
Qed.

Lemma pandoc_only_for_html_witness :
  format html_options = Some "html" ∧
  str_truthy (diff html_options) = false ∧ dep html_options = false ∧
  (∃ study,
     generateReport (sample_env early_report) study
       (FormatOptions (negb (perissue html_options))) = Some "report") ∧
  PANDOC_ARGS "/opt/strudy/src/templates/report-perissue-template.html" =
  PANDOC_ARGS
    (path_join (PathModule:=posix)
       (path_join (PathModule:=posix)
          (path_join (PathModule:=posix) (dirname (sample_env early_report)) "src")
          "templates")
       ("report" +:+ (if perissue html_options then "-perissue" else EmptyString)
        +:+ "-template.html")).
Proof.
  apply (pandoc_only_for_html (P:=posix) (sample_env early_report) "report.json"
           html_options).
  vm_compute. do 4 (apply elem_of_cons; right). apply elem_of_cons. by left.
Defined.

(** Whatever the run sniffs, loads or hands to [studyCrawl] was found
    readable first: the report located is the resolved one and was probed
    successfully, and so was the TR report when one is passed on. *)
Theorem located_reports_were_probed {P : PathModule} (env : Env)
    (report : string) (options : Options) (probes : list Event)
    (edReport : string) (trReport : option string) :
  locate_reports env report options = (probes, Val (edReport, trReport)) →
  edReport = edReport_of env report ∧
  EvAccess edReport true ∈ probes ∧
  Forall (λ e, is_probe e = true) probes ∧
  (str_truthy trReport = true →
   ∃ file, trReport = Some file ∧ EvAccess file true ∈ probes).
Proof.
  intros (? & ? & ? & ? & _)%locate_reports_val. by split_and!.
Qed.

Lemma located_reports_were_probed_witness :
  "webref/ed/index.json" = edReport_of (P:=posix) (webref_env []) "webref" ∧
  EvAccess "webref/ed/index.json" true
    ∈ [EvAccess "webref/ed" true; EvAccess "webref/tr" true;
       EvAccess "webref/ed/index.json" true;
       EvAccess "webref/tr/index.json" true] ∧
  Forall (λ e, is_probe e = true)
    [EvAccess "webref/ed" true; EvAccess "webref/tr" true;
     EvAccess "webref/ed/index.json" true;
     EvAccess "webref/tr/index.json" true] ∧
  (str_truthy (Some "webref/tr/index.json") = true →
   ∃ file, Some "webref/tr/index.json" = Some file ∧
           EvAccess file true
             ∈ [EvAccess "webref/ed" true; EvAccess "webref/tr" true;
                EvAccess "webref/ed/index.json" true;
                EvAccess "webref/tr/index.json" true]).
Proof.
  apply (located_reports_were_probed (P:=posix) (webref_env []) "webref" no_options).
  reflexivity.
Defined.

(** The TR report: a non-empty [--tr] always wins, also over a [tr]
    subfolder, and gets [index.json] appended unless it ends in [.json];
    without it a TR report is passed on only for a folder that has readable
    [ed] and [tr] subfolders, and it is the index file of the latter. *)
Theorem tr_report_resolution {P : PathModule} (env : Env) (report : string)
    (options : Options) (probes : list Event) (edReport : string)
    (trReport : option string) :
  locate_reports env report options = (probes, Val (edReport, trReport)) →
  (str_truthy (tr options) = true →
   ∃ p, tr options = Some p ∧
        trReport = Some (if endsWith p ".json" then p else path_join p "index.json")) ∧
  (str_truthy (tr options) = false → str_truthy trReport = true →
   endsWith report ".json" = false ∧
   fs_access env (path_join report "ed") = true ∧
   fs_access env (path_join report "tr") = true ∧
   trReport = Some (if endsWith (path_join report "tr") ".json"
                    then path_join report "tr"
                    else path_join (path_join report "tr") "index.json")).
Proof.
  intros (_ & _ & _ & _ & ? & ?)%locate_reports_val. by split.
Qed.

Lemma tr_report_resolution_witness :
  (∃ p, tr tr_options = Some p ∧
        Some "published/index.json"
        = Some (if endsWith p ".json" then p
                else path_join (PathModule:=posix) p "index.json")) ∧
  (endsWith "webref" ".json" = false ∧
   fs_access (webref_env []) (path_join (PathModule:=posix) "webref" "ed") = true ∧
   fs_access (webref_env []) (path_join (PathModule:=posix) "webref" "tr") = true ∧
   Some "webref/tr/index.json"
   = Some (if endsWith (path_join (PathModule:=posix) "webref" "tr") ".json"
           then path_join (PathModule:=posix) "webref" "tr"
           else path_join (PathModule:=posix)
                  (path_join (PathModule:=posix) "webref" "tr") "index.json")).
Proof.
  split.
  - apply (tr_report_resolution (P:=posix) (webref_env []) "webref" tr_options
             [EvAccess "webref/ed" true; EvAccess "webref/ed/index.json" true;
              EvAccess "published/index.json" true]
             "webref/ed/index.json" (Some "published/index.json"));
      reflexivity.
  - apply (tr_report_resolution (P:=posix) (webref_env []) "webref" no_options
             [EvAccess "webref/ed" true; EvAccess "webref/tr" true;
              EvAccess "webref/ed/index.json" true;
              EvAccess "webref/tr/index.json" true]
             "webref/ed/index.json" (Some "webref/tr/index.json"));
      reflexivity.
Defined.

(** A TR report found by itself (the [tr] subfolder of the report folder)
    whose index file cannot be read stops the run like a missing report:
    one message, exit code 2, no analysis.  As [--tr] was not given, the
    message names [undefined]. *)
Theorem unreadable_auto_tr_is_terminal {P : PathModule} (env : Env)
    (report : string) (options : Options) :
  let edDir := path_join report "ed" in
  let trDir := path_join report "tr" in
  let trFile := if endsWith trDir ".json" then trDir
                else path_join trDir "index.json" in
  options_ok options = true → tr options = None →
  endsWith report ".json" = false →
  fs_access env edDir = true → fs_access env trDir = true →
  fs_access env (path_join edDir "index.json") = true →
  String.eqb trDir EmptyString = false →
  fs_access env trFile = false →
  action env report options =
    ([EvAccess edDir true; EvAccess trDir true;
      EvAccess (path_join edDir "index.json") true; EvAccess trFile false;
      EvConsoleError "Could not find/access TR crawl report: undefined"],
     Halted (Exit 2)).
Proof.
  intros edDir trDir trFile Hok Htr Hjson Hed Htrd Hidx Hne Hfile.
  unfold action, locate_reports, resolve_ed, exists_, emit.
  rewrite (check_options_ok _ Hok), Hjson. fold edDir trDir.
  rewrite Hed, Htr. cbn [str_truthy]. rewrite Htrd.
  cbn [mbind run_bind mret run_ret app fst snd]. rewrite Hidx.
  cbn [mbind run_bind mret run_ret app fst snd negb when str_truthy].
  rewrite Hne. cbn [negb]. fold trFile. rewrite Hfile.
  reflexivity.
Qed.

Lemma unreadable_auto_tr_is_terminal_witness :
  action (P:=posix) (webref_env ["webref/tr/index.json"]) "webref" no_options =
    ([EvAccess "webref/ed" true; EvAccess "webref/tr" true;
      EvAccess "webref/ed/index.json" true;
      EvAccess "webref/tr/index.json" false;
      EvConsoleError "Could not find/access TR crawl report: undefined"],
     Halted (Exit 2)).
Proof.
  apply (unreadable_auto_tr_is_terminal (P:=posix)
           (webref_env ["webref/tr/index.json"]) "webref" no_options);
    reflexivity.
Defined.

Lemma action_output_event {P : PathModule} env report options e :
  is_output e = true → e ∈ (action env report options).1 →
  options_ok options = true ∧
  ∃ study, e ∈ (res ← render env study options; emit (EvConsoleLog res)).1.
Proof.
  intros He Hin.
  destruct (options_ok options) eqn:Hok.
  2: { destruct (action_bad_options env report options Hok) as [msg Heq].
       rewrite Heq in Hin. cbn in Hin.
       apply elem_of_cons in Hin as [->|Hin]; [done|]. by apply elem_of_nil in Hin. }
  split; [done|].
  destruct (locate_reports_trace env report options)
    as (probes & Hp & [(trReport & Hloc & _)|(msg & Hloc)]).
  2: { unfold action in Hin. rewrite (check_options_ok _ Hok), Hloc in Hin.
       cbn in Hin. apply elem_of_app in Hin as [Hin|Hin].
       - apply (proj1 (Forall_forall _ _) Hp) in Hin. by destruct e.
       - apply elem_of_cons in Hin as [->|Hin]; [done|].
         by apply elem_of_nil in Hin. }
  destruct (action_trace_parts env report options _ _ _ Hok Hloc)
    as (mid & rest & Heq & Hmid & Hrest).
  rewrite Heq in Hin.
  apply elem_of_app in Hin as [Hin|Hin].
  { apply (proj1 (Forall_forall _ _) Hp) in Hin. by destruct e. }
  apply elem_of_cons in Hin as [->|Hin]; [done|].
  apply elem_of_app in Hin as [Hin|Hin].
  { destruct Hmid as [-> | [-> | [-> | ->]]];
      repeat (apply elem_of_cons in Hin as [->|Hin]; [done|]);
      by apply elem_of_nil in Hin. }
  destruct Hrest as [->|[study ->]]; [by apply elem_of_nil in Hin|].
  by exists study.
Qed.

(** [generateReport] is called only when something other than the JSON of
    the study is asked for: with the diff and dependencies flags as given
    (and [--onlynew] passed on) when one of them is set, and otherwise for a
    markdown or HTML report, per specification unless [--perissue] is set.
    A diff or dependencies request takes precedence over the format. *)
Theorem generateReport_only_when_requested {P : PathModule} (env : Env)
    (report : string) (options : Options) (study : JSValue)
    (opts : ReportOptions) :
  EvGenerateReport study opts ∈ (action env report options).1 →
  (str_truthy (diff options) || dep options = true ∧
   opts = DiffDepOptions (dep options) (str_truthy (diff options))
            (diff options) (onlynew options)) ∨
  (str_truthy (diff options) = false ∧ dep options = false ∧
   (format options = Some "markdown" ∨ format options = Some "html") ∧
   opts = FormatOptions (negb (perissue options))).
Proof.
  intros Hin.
  apply action_output_event in Hin as (Hok%check_options_ok & study' & Hin); [|done].
  pose proof (accepted_options_format _ Hok) as Hfmts.
  revert Hin. unfold render, try_call, emit.
  destruct (str_truthy (diff options) || dep options) eqn:Hdd.
  { destruct (generateReport env study' _); cbn; intros Hin;
      (apply elem_of_cons in Hin as [?|Hin]; [left; by simplify_eq|]);
      repeat (apply elem_of_cons in Hin as [?|Hin]; [done|]);
      by apply elem_of_nil in Hin. }
  apply orb_false_iff in Hdd as [Hd Hdep].
  destruct (str_truthy (format options)) eqn:Hf; cbn [andb].
  2: { cbn. intros Hin. repeat (apply elem_of_cons in Hin as [?|Hin]; [done|]).
       by apply elem_of_nil in Hin. }
  unfold is_format at 1. case_bool_decide as Hjson; cbn [negb].
  { cbn. intros Hin. repeat (apply elem_of_cons in Hin as [?|Hin]; [done|]).
    by apply elem_of_nil in Hin. }
  destruct (Hfmts eq_refl) as [?|Hfmt]; [done|].
  intros Hin. right. split_and!; [done..|].
  destruct (generateReport env study' _) as [md|];
    cbn [mbind run_bind mret run_ret app halt] in Hin.
  2: { cbn in Hin. apply elem_of_cons in Hin as [?|Hin]; [by simplify_eq|].
       by apply elem_of_nil in Hin. }
  destruct (is_format "html" (format options)).
  - destruct (pandoc env md _); cbn in Hin;
      (apply elem_of_cons in Hin as [?|Hin]; [by simplify_eq|]);
      repeat (apply elem_of_cons in Hin as [?|Hin]; [done|]);
      by apply elem_of_nil in Hin.
  - cbn in Hin. apply elem_of_cons in Hin as [?|Hin]; [by simplify_eq|].
    repeat (apply elem_of_cons in Hin as [?|Hin]; [done|]).
    by apply elem_of_nil in Hin.
Qed.

Lemma generateReport_only_when_requested_witness :
  (str_truthy (diff html_options) || dep html_options = true ∧
   FormatOptions false
   = DiffDepOptions (dep html_options) (str_truthy (diff html_options))
       (diff html_options) (onlynew html_options)) ∨
  (str_truthy (diff html_options) = false ∧ dep html_options = false ∧
   (format html_options = Some "markdown" ∨ format html_options = Some "html") ∧
   FormatOptions false = FormatOptions (negb (perissue html_options))).
Proof.
  apply (generateReport_only_when_requested (P:=posix) (sample_env early_report)
           "report.json" html_options sample_study).
  vm_compute. do 3 (apply elem_of_cons; right). apply elem_of_cons. by left.
Defined.

(** ** Further properties of the issue-filing script *)

Lemma filter_brokenLinks_None field :
  filter_brokenLinks field = None ↔
  field ≠ JUndefined ∧ field ≠ JNull ∧ ∀ all, field ≠ JArray (JString <$> all).
Proof.
  split.
  - intros Hn. split_and!; try (intros ->; done).
    intros all ->. by rewrite filter_brokenLinks_strings in Hn.
  - intros (Hu & Hnull & Harr).
    destruct (filter_brokenLinks field) as [links|] eqn:E; [|done].
    apply filter_brokenLinks_Some in E as [[[->| ->] _]|(all & -> & _)];
      [done..|]. by destruct (Harr all).
Qed.

Lemma get_field_None_iff v name :
  get_field v name = None ↔ v = JUndefined ∨ v = JNull.
Proof. destruct v; cbn; intuition congruence. Qed.

(** When a callback throws.  It throws before any event exactly when
    the entry is [undefined] or [null], when its [brokenLinks] is neither
    missing nor an array of strings, or when there are links to report and
    the shortname cannot be converted to a string.  It may also throw after
    [fs.stat] found no issue file: when the repository, the title or the
    crawled URL cannot be converted, before any write; when the write is
    rejected; and when the [n]-th git command fails, after the write and
    [n] commands that went through.  It never exits the process. *)
Theorem callback_throws_exactly_when {P : PathModule}
    (currentBranch : string) (stat : string → StatResult) (fate : Fate)
    (specResult : JSValue) :
  (issue_callback currentBranch stat fate specResult = ([], Halted Uncaught) ↔
   specResult = JUndefined ∨ specResult = JNull ∨
   ∃ field,
     get_field specResult "brokenLinks" = Some field ∧
     ((field ≠ JUndefined ∧ field ≠ JNull ∧
       ∀ all, field ≠ JArray (JString <$> all)) ∨
      ∃ links shortname,
        filter_brokenLinks field = Some links ∧ links ≠ [] ∧
        get_field specResult "shortname" = Some shortname ∧
        to_string shortname = None)) ∧
  ((issue_callback currentBranch stat fate specResult).2 = Halted Uncaught →
   (issue_callback currentBranch stat fate specResult).1 ≠ [] →
   ∃ shortname,
     get_field specResult "shortname" = Some shortname ∧
     stat (issueFilename shortname) = StatError ∧
     (((issue_callback currentBranch stat fate specResult).1
         = [EvStat (issueFilename shortname) StatError] ∧
       ∃ name x, name ∈ ["repo"; "title"; "crawled"] ∧
                 get_field specResult name = Some x ∧ to_string x = None) ∨
      ((issue_callback currentBranch stat fate specResult).1
         = [EvStat (issueFilename shortname) StatError;
            EvWriteFailed (issueFilename shortname)] ∧
       write_fate fate = WriteRejects) ∨
      ∃ data n,
        (n < 4)%nat ∧ exec_returns fate n = false ∧
        (∀ m, (m < n)%nat → exec_returns fate m = true) ∧
        take 2 (issue_callback currentBranch stat fate specResult).1
          = [EvStat (issueFilename shortname) StatError;
             EvWriteFile (issueFilename shortname) data] ∧
        length (issue_callback currentBranch stat fate specResult).1
          = (3 + n)%nat)) ∧
  (∀ code, (issue_callback currentBranch stat fate specResult).2
             ≠ Halted (Exit code)).
Proof.
  split_and!.
  - split.
    + intros Hrun.
      destruct (get_field specResult "brokenLinks") as [field|] eqn:Hf.
      2: { apply get_field_None_iff in Hf. tauto. }
      right. right. exists field. split; [done|].
      destruct (filter_brokenLinks field) as [links|] eqn:Hl.
      2: { left. by apply filter_brokenLinks_None. }
      right. revert Hrun. callback_cases; intros [=]; simplify_eq.
      by eexists _, _.
    + intros [->|[->|(field & Hf & [Hn|(links & sn & Hl & Hne & Hs & Hc)])]];
        [done..| |].
      * apply filter_brokenLinks_None in Hn.
        unfold issue_callback, or_throw. rewrite Hf.
        cbn [mbind run_bind mret run_ret app]. by rewrite Hn.
      * unfold issue_callback, or_throw. rewrite Hf.
        cbn [mbind run_bind mret run_ret app]. rewrite Hl.
        cbn [mbind run_bind mret run_ret app].
        rewrite bool_decide_true by done. rewrite Hs.
        cbn [mbind run_bind mret run_ret app]. by rewrite Hc.
  - destruct (issue_callback _ _ _ _) as [trace result] eqn:Hrun.
    revert Hrun. callback_cases; intros [= <- <-] [=] Hnil; try done;
      eexists; (split; [reflexivity|]); (split; [done|]).
    all: first
      [ match goal with
        | Hc : to_string ?x = None, Hg : get_field _ ?name = Some ?x |- _ =>
          left; split; [done|]; exists name, x; split; [set_solver|by split]
        end
      | right; left; by split
      | right; right; eexists _, _; split_and!; [ |eassumption| |done|done];
        [lia|intros m Hm;
             repeat (destruct m as [|m]; [done|]); lia] ].
  - intros code. destruct (issue_callback _ _ _ _) as [trace result] eqn:Hrun.
    revert Hrun. callback_cases; by intros [= <- <-].
Qed.

Lemma callback_throws_exactly_when_witness :
  let run :=
    issue_callback (P:=posix) "main" (λ _, StatError) no_issues_folder
      sample_entry in
  ∃ shortname,
    get_field sample_entry "shortname" = Some shortname ∧
    StatError = StatError ∧
    ((run.1 = [EvStat (issueFilename (P:=posix) shortname) StatError] ∧
      ∃ name x, name ∈ ["repo"; "title"; "crawled"] ∧
                get_field sample_entry name = Some x ∧ to_string x = None) ∨
     (run.1 = [EvStat (issueFilename (P:=posix) shortname) StatError;
               EvWriteFailed (issueFilename (P:=posix) shortname)] ∧
      write_fate no_issues_folder = WriteRejects) ∨
     ∃ data n,
       (n < 4)%nat ∧ exec_returns no_issues_folder n = false ∧
       (∀ m, (m < n)%nat → exec_returns no_issues_folder m = true) ∧
       take 2 run.1
         = [EvStat (issueFilename (P:=posix) shortname) StatError;
            EvWriteFile (issueFilename (P:=posix) shortname) data] ∧
       length run.1 = (3 + n)%nat).
Proof.
  apply (proj1 (proj2 (callback_throws_exactly_when (P:=posix) "main"
                         (λ _, StatError) no_issues_folder sample_entry))).
  - reflexivity.
  - vm_compute. discriminate.
Defined.

(** What one callback changes.  Its writes and commands are none at all, or
    a write to the issue file of its specification that failed, or a
    beginning of the bundle of one filing: the issue file written, then the
    branch named after the moniker created, the file added, the commit made
    and the branch the script started on checked out again.  A callback that
    completes has left nothing or the whole bundle; one that throws or is cut
    short may have left any beginning of it.  No other file is written and
    no other command is run. *)
Theorem filing_is_a_beginning_of_the_bundle {P : PathModule}
    (currentBranch : string) (stat : string → StatResult) (fate : Fate)
    (specResult : JSValue) :
  let run := issue_callback currentBranch stat fate specResult in
  let mutations := List.filter is_mutation run.1 in
  mutations = [] ∨
  ∃ shortname title data,
    get_field specResult "shortname" = Some shortname ∧
    get_field specResult "title" = Some title ∧
    stat (issueFilename shortname) = StatError ∧
    let file :=
      path_join "issues/" ((to_str shortname +:+ "-brokenlinks") +:+ ".md") in
    let bundle :=
      [EvWriteFile file data;
       EvExec ("git checkout -b " +:+ to_str shortname +:+ "-brokenlinks");
       EvExec ("git add " +:+ file);
       EvExec ("git commit -m " +:+ QUOTE +:+
               ("File report on broken links found in " +:+ to_str title) +:+
               QUOTE);
       EvExec ("git checkout " +:+ currentBranch)] in
    (mutations = [EvWriteFailed file] ∧ run.2 ≠ Val tt) ∨
    (mutations `prefix_of` bundle ∧ (run.2 = Val tt → mutations = bundle)).
Proof.
  cbv zeta.
  destruct (issue_callback _ _ _ _) as [trace result] eqn:Hrun.
  revert Hrun. callback_cases; intros [= <- <-];
    cbn [fst snd List.filter is_mutation];
    first [ by left
          | right; eexists _, _, _;
            split_and!; [reflexivity|reflexivity|eassumption|];
            first [ by left
                  | right; split; [by eexists|done] ] ].
  Unshelve. all: exact EmptyString.
Qed.

(** Filing again.  After a callback has written the issue file, a second
    run on the world the first one left bails out without a write or a
    command only if the issue file is still there.  When the commands of the
    first run have taken it away (the last one checks out the branch the
    script started on, which does not have the file), the second run is the
    first one over again. *)
Theorem refiling_depends_on_the_working_tree {P : PathModule} {host : Host}
    (currentBranch : string) (w : World) (fate fate' : Fate)
    (specResult shortname : JSValue) :
  get_field specResult "shortname" = Some shortname →
  let first := issue_callback currentBranch (stat_world w) fate specResult in
  let w' := apply_events w first.1 in
  let again := issue_callback currentBranch (stat_world w') fate' specResult in
  (∃ file data, EvWriteFile file data ∈ first.1) →
  (is_Some (files w' !! issueFilename shortname) →
   Forall (λ e, is_mutation e = false) again.1 ∧ apply_events w' again.1 = w') ∧
  (files w' !! issueFilename shortname = None →
   again = issue_callback currentBranch (stat_world w) fate' specResult).
Proof.
  intros Hs first w' again (file & data & Hin). split.
  - intros [node Hnode].
    assert (Forall (λ e, is_mutation e = false) again.1) as Hm.
    { apply (skipped_by_callback _ _ _ _ shortname Hs).
      unfold stat_world. rewrite Hnode. by destruct node. }
    split; [done | by apply not_mutation_apply_events].
  - intros Hnone.
    apply written_by_callback in Hin
      as (_ & _ & sn & _ & _ & _ & _ & _ & _ & Hs' & _ & _ & _ & _ & _ & _ & _
          & _ & Hstat & _ & _).
    simplify_eq. apply (callback_stat_ext _ _ _ _ _ shortname Hs).
    rewrite Hstat. unfold stat_world. by rewrite Hnone.
Qed.

Lemma refiling_depends_on_the_working_tree_witness :
  let first :=
    issue_callback (P:=posix) "main" (stat_world empty_world) steady
      sample_entry in
  let w' := apply_events (host:=git_host) empty_world first.1 in
  issue_callback (P:=posix) "main" (stat_world w') steady sample_entry = first.
Proof.
  intros first w'.
  refine (proj2 (refiling_depends_on_the_working_tree (P:=posix)
                   (host:=git_host) "main" empty_world steady steady
                   sample_entry (JString "dom") eq_refl _) _).
  - eexists _, _. vm_compute.
    apply elem_of_cons. right. apply elem_of_cons. by left.
  - vm_compute. reflexivity.
Defined.

(** Strings: substrings of appended and joined strings. *)
Lemma append_cons (x : ascii) (a b : string) :
  String x a +:+ b = String x (a +:+ b).
Proof. reflexivity. Qed.

Lemma append_nil_l (b : string) : EmptyString +:+ b = b.
Proof. reflexivity. Qed.

Lemma append_nil_r (a : string) : a +:+ EmptyString = a.
Proof. induction a as [|x a IH]; [done|]. by rewrite append_cons, IH. Qed.

Lemma append_assoc (a b c : string) : (a +:+ b) +:+ c = a +:+ b +:+ c.
Proof. induction a as [|x a IH]; [done|]. by rewrite !append_cons, IH. Qed.

Lemma prefix_append (s t : string) : String.prefix s (s +:+ t) = true.
Proof.
  induction s as [|x s IH]; [by destruct t|].
  rewrite append_cons. cbn [String.prefix]. by destruct (ascii_dec x x).
Qed.

Lemma str_contains_append (needle a b : string) :
  str_contains needle (a +:+ needle +:+ b) = true.
Proof.
  induction a as [|x a IH].
  - rewrite append_nil_l.
    destruct needle as [|y needle]; [by destruct b|].
    rewrite append_cons. cbn [str_contains]. rewrite <-append_cons.
    by rewrite prefix_append.
  - rewrite append_cons. cbn [str_contains]. rewrite IH.
    by destruct (String.prefix _ _).
Qed.

Lemma str_contains_prepend (needle p s : string) :
  str_contains needle s = true → str_contains needle (p +:+ s) = true.
Proof.
  intros Hs. induction p as [|x p IH]; [done|].
  rewrite append_cons. cbn [str_contains]. rewrite IH.
  by destruct (String.prefix _ _).
Qed.

Lemma concat_elem (sep x : string) (l : list string) :
  x ∈ l → ∃ a b, String.concat sep l = a +:+ x +:+ b.
Proof.
  induction l as [|y l IH]; [by intros ?%elem_of_nil|].
  intros [->|Hin]%elem_of_cons.
  - destruct l as [|z l]; cbn [String.concat].
    + exists EmptyString, EmptyString. by rewrite append_nil_l, append_nil_r.
    + by exists EmptyString, (sep +:+ String.concat sep (z :: l)).
  - destruct (IH Hin) as (a & b & Heq).
    destruct l as [|z l]; [by apply elem_of_nil in Hin|].
    change (String.concat sep (y :: z :: l))
      with (y +:+ sep +:+ String.concat sep (z :: l)).
    rewrite Heq. exists (y +:+ sep +:+ a), b. by rewrite !append_assoc.
Qed.

Lemma issueReport_lists_link repo title crawled links link :
  link ∈ links →
  str_contains (issue_line link) (issueReport repo title crawled links) = true.
Proof.
  intros Hin.
  assert (issue_line link ∈ issue_line <$> links) as Hl
    by by apply list_elem_of_fmap_2.
  destruct (concat_elem NL _ _ Hl) as (a & b & Heq).
  unfold issueReport. rewrite Heq, !append_assoc.
  do 17 apply str_contains_prepend. apply str_contains_append.
Qed.


(** No broken link outside [w3.org/TR/] is lost.  Whatever the callback
    writes lists every such link of the specification as a check-list item.
    And it does write the issue file when [fs.stat] answers that there is
    none, the shortname, the repository, the title and the crawled URL can
    be converted to strings, and the write is carried out. *)
Theorem broken_links_outside_TR_are_filed {P : PathModule}
    (currentBranch : string) (stat : string → StatResult) (fate : Fate)
    (specResult : JSValue) (all : list string) (link : string) :
  get_field specResult "brokenLinks" = Some (JArray (JString <$> all)) →
  link ∈ all → matches_TR link = false →
  (∀ file data,
     EvWriteFile file data
       ∈ (issue_callback currentBranch stat fate specResult).1 →
     str_contains ("* [ ] " +:+ link) data = true) ∧
  (∀ shortname,
     get_field specResult "shortname" = Some shortname →
     stat_answers fate = true →
     stat (issueFilename shortname) = StatError →
     (∀ name x,
        name ∈ ["shortname"; "repo"; "title"; "crawled"] →
        get_field specResult name = Some x → is_Some (to_string x)) →
     write_fate fate = WriteResolves ∨ write_fate fate = WriteCut true →
     ∃ data,
       EvWriteFile (issueFilename shortname) data
         ∈ (issue_callback currentBranch stat fate specResult).1).
Proof.
  intros Hb Hin Hm.
  assert (link ∈ List.filter (λ u, negb (matches_TR u)) all) as Hl.
  { apply list_elem_of_In, filter_In. split; [by apply list_elem_of_In|].
    by rewrite Hm. }
  split.
  - intros file data Hw.
    apply written_by_callback in Hw
      as (field & links & sn & repo & title & crawled & Hf & Hfl & _ & _ & _ & _
          & _ & _ & _ & _ & _ & _ & _ & _ & ->).
    simplify_eq. rewrite filter_brokenLinks_strings in Hfl. simplify_eq.
    by apply issueReport_lists_link.
  - intros shortname Hs Hanswers Hstat Hconv Hwrite.
    assert (List.filter (λ u, negb (matches_TR u)) all ≠ []) as Hne.
    { intros Hnil. rewrite Hnil in Hl. by apply elem_of_nil in Hl. }
    destruct (get_field_total _ _ _ "repo" Hb) as [repo Hr].
    destruct (get_field_total _ _ _ "title" Hb) as [title Ht].
    destruct (get_field_total _ _ _ "crawled" Hb) as [crawled Hc].
    destruct (Hconv "shortname" shortname) as [? Es]; [set_solver|done|].
    destruct (Hconv "repo" repo) as [? Er]; [set_solver|done|].
    destruct (Hconv "title" title) as [? Et]; [set_solver|done|].
    destruct (Hconv "crawled" crawled) as [? Ec]; [set_solver|done|].
    unfold issue_callback, execSync, or_throw, emit, halt.
    rewrite Hb, Hs, Hr, Ht, Hc. cbn [mbind run_bind mret run_ret app].
    rewrite filter_brokenLinks_strings. cbn [mbind run_bind mret run_ret app].
    rewrite (bool_decide_true _ Hne), Es, Hanswers.
    cbn [mbind run_bind mret run_ret app negb]. rewrite Hstat.
    rewrite (bool_decide_false (@nil JSValue ≠ [])) by (by intros []).
    rewrite Er, Et, Ec. cbn [mbind run_bind mret run_ret app].
    eexists.
    destruct Hwrite as [-> | ->]; cbn [mbind run_bind mret run_ret app].
    + repeat match goal with
             | |- context [exec_returns fate ?n] =>
               destruct (exec_returns fate n);
               cbn [mbind run_bind mret run_ret app]
             end;
        (apply elem_of_cons; right; apply elem_of_cons; by left).
    + apply elem_of_cons. right. apply elem_of_cons. by left.
Qed.

Lemma broken_links_outside_TR_are_filed_witness :
  (∀ file data,
     EvWriteFile file data
       ∈ (issue_callback (P:=posix) "main" (λ _, StatError) branch_exists
            sample_entry).1 →
     str_contains
       ("* [ ] " +:+
        "https://w3c.github.io/DOM-Parsing/#dfn-createcontextualfragment-fragment")
       data = true) ∧
  (∃ data,
     EvWriteFile (issueFilename (P:=posix) (JString "dom")) data
       ∈ (issue_callback (P:=posix) "main" (λ _, StatError) branch_exists
            sample_entry).1).
Proof.
  destruct (broken_links_outside_TR_are_filed (P:=posix) "main" (λ _, StatError)
              branch_exists sample_entry
              ["https://www.w3.org/TR/SVG11/#unknown";
               "https://w3c.github.io/DOM-Parsing/#dfn-createcontextualfragment-fragment"]
              "https://w3c.github.io/DOM-Parsing/#dfn-createcontextualfragment-fragment")
    as [Hsafe Hlive].
  - reflexivity.
  - apply elem_of_cons. right. apply elem_of_cons. by left.
  - reflexivity.
  - split; [exact Hsafe|].
    apply (Hlive (JString "dom")); [reflexivity..| |by left].
    intros name x Hname.
    repeat (apply elem_of_cons in Hname as [->|Hname];
            [intros [= <-]; by eexists|]).
    by apply elem_of_nil in Hname.
Defined.

(** The run of a filing, call by call.  When there are links to report, the
    fields convert to strings and [fs.stat] answers that there is no issue
    file, the callback is what the fate of its calls makes it: a rejected
    write ends it with an exception, after which no command is run; a write
    cut short ends it there; after a write that went through, the four git
    commands are handed to the shell in order, up to the first that fails,
    and the callback completes only if none does. *)
Theorem filing_call_by_call {P : PathModule} (currentBranch : string)
    (stat : string → StatResult) (fate : Fate) (specResult : JSValue)
    (all : list string) (shortname repo title crawled : JSValue) :
  get_field specResult "brokenLinks" = Some (JArray (JString <$> all)) →
  List.filter (λ u, negb (matches_TR u)) all ≠ [] →
  get_field specResult "shortname" = Some shortname →
  get_field specResult "repo" = Some repo →
  get_field specResult "title" = Some title →
  get_field specResult "crawled" = Some crawled →
  Forall (λ v, is_Some (to_string v)) [shortname; repo; title; crawled] →
  stat_answers fate = true →
  stat (issueFilename shortname) = StatError →
  let file := issueFilename shortname in
  let data :=
    issueReport (to_str repo) (to_str title) (to_str crawled)
      (List.filter (λ u, negb (matches_TR u)) all) in
  let commands :=
    ["git checkout -b " +:+ to_str shortname +:+ "-brokenlinks";
     "git add " +:+ file;
     "git commit -m " +:+ QUOTE +:+
       ("File report on broken links found in " +:+ to_str title) +:+ QUOTE;
     "git checkout " +:+ currentBranch] in
  issue_callback currentBranch stat fate specResult =
    match write_fate fate with
    | WriteRejects =>
      ([EvStat file StatError; EvWriteFailed file], Halted Uncaught)
    | WriteCut written =>
      ([EvStat file StatError;
        if written then EvWriteFile file data else EvWriteFailed file],
       Halted Interrupted)
    | WriteResolves =>
      (EvStat file StatError :: EvWriteFile file data ::
         (EvExec <$> handed (exec_returns fate) 0 commands),
       if forallb (exec_returns fate) [0; 1; 2; 3]%nat then Val tt
       else Halted Uncaught)
    end.
Proof.
  intros Hb Hne Hs Hr Ht Hc Hconv Hanswers Hstat. cbv zeta.
  apply Forall_cons in Hconv as [[? Es] Hconv].
  apply Forall_cons in Hconv as [[? Er] Hconv].
  apply Forall_cons in Hconv as [[? Et] Hconv].
  apply Forall_cons in Hconv as [[? Ec] _].
  unfold issue_callback, execSync, or_throw, emit, halt.
  rewrite Hb, Hs, Hr, Ht, Hc. cbn [mbind run_bind mret run_ret app].
  rewrite filter_brokenLinks_strings. cbn [mbind run_bind mret run_ret app].
  rewrite (bool_decide_true _ Hne), Es, Hanswers.
  cbn [mbind run_bind mret run_ret app negb]. rewrite Hstat.
  rewrite (bool_decide_false (@nil JSValue ≠ [])) by (by intros []).
  rewrite Er, Et, Ec. cbn [mbind run_bind mret run_ret app].
  destruct (write_fate fate) as [| |[|]]; [|done..].
  cbn [mbind run_bind mret run_ret app forallb handed fmap list_fmap andb].
  destruct (exec_returns fate 0); cbn [mbind run_bind mret run_ret app andb];
    [|done].
  destruct (exec_returns fate 1); cbn [mbind run_bind mret run_ret app andb];
    [|done].
  destruct (exec_returns fate 2); cbn [mbind run_bind mret run_ret app andb];
    [|done].
  by destruct (exec_returns fate 3).
Qed.

Lemma filing_call_by_call_witness :
  issue_callback (P:=posix) "main" (λ _, StatError) branch_exists sample_entry =
    ([EvStat "issues/dom-brokenlinks.md" StatError;
      EvWriteFile "issues/dom-brokenlinks.md"
        (issueReport "https://github.com/whatwg/dom" "DOM Standard"
           "https://dom.spec.whatwg.org/"
           ["https://w3c.github.io/DOM-Parsing/#dfn-createcontextualfragment-fragment"]);
      EvExec "git checkout -b dom-brokenlinks"],
     Halted Uncaught).
Proof.
  apply (filing_call_by_call (P:=posix) "main" (λ _, StatError) branch_exists
           sample_entry
           ["https://www.w3.org/TR/SVG11/#unknown";
            "https://w3c.github.io/DOM-Parsing/#dfn-createcontextualfragment-fragment"]
           (JString "dom") (JString "https://github.com/whatwg/dom")
           (JString "DOM Standard") (JString "https://dom.spec.whatwg.org/"));
    try reflexivity.
  - vm_compute. discriminate.
  - repeat constructor; by eexists.
Defined.



(** ** Paths on POSIX *)

Lemma endsWith_append (a b : string) : endsWith (a +:+ b) b = true.
Proof.
  induction a as [|x a IH].
  - rewrite append_nil_l. destruct b; cbn [endsWith]; by rewrite String.eqb_refl.
  - rewrite append_cons. cbn [endsWith]. rewrite IH. by destruct (String.eqb _ _).
Qed.

Lemma split_slash_nonempty (p : string) : split_slash p ≠ [].
Proof.
  destruct p as [|c p]; [done|]. cbn [split_slash].
  destruct (Ascii.eqb c "/"); [done|]. by destruct (split_slash p).
Qed.

Lemma split_slash_join (a b : string) :
  split_slash (a +:+ "/" +:+ b) = split_slash a ++ split_slash b.
Proof.
  induction a as [|c a IH].
  - done.
  - rewrite append_cons. cbn [split_slash]. rewrite IH.
    destruct (Ascii.eqb c "/"); [done|].
    pose proof (split_slash_nonempty a). by destruct (split_slash a).
Qed.

Lemma concat_last (sep x : string) (l : list string) :
  ∃ a, String.concat sep (l ++ [x]) = a +:+ x.
Proof.
  induction l as [|y l [a IH]].
  - by exists EmptyString.
  - destruct l as [|z l].
    + exists (y +:+ sep). cbn [app]. cbn [String.concat]. by rewrite append_assoc.
    + cbn [app] in *.
      change (String.concat sep (y :: z :: l ++ [x]))
        with (y +:+ sep +:+ String.concat sep (z :: l ++ [x])).
      rewrite IH. exists (y +:+ sep +:+ a). by rewrite !append_assoc.
Qed.

Lemma endsWith_slash_index (a : string) :
  endsWith (a +:+ "/index.json") "/" = false.
Proof.
  induction a as [|x a IH]; [done|].
  rewrite append_cons. cbn [endsWith]. rewrite IH.
  destruct a; by destruct x as [[] [] [] [] [] [] [] []].
Qed.

Lemma posix_normalize_index (a : string) :
  ∃ pre, posix_normalize (a +:+ "/index.json") = pre +:+ "index.json".
Proof.
  unfold posix_normalize.
  replace (String.eqb (a +:+ "/index.json") EmptyString) with false
    by by destruct a.
  rewrite endsWith_slash_index.
  change "/index.json" with ("/" +:+ "index.json").
  rewrite split_slash_join, fold_left_app.
  cbn [split_slash Ascii.eqb Bool.eqb fold_left].
  set (stack := fold_left _ (split_slash a) []).
  change (normalize_step _ stack "index.json") with ("index.json" :: stack).
  cbn [rev]. destruct (concat_last "/" "index.json" (rev stack)) as [pre ->].
  replace (String.eqb (pre +:+ "index.json") EmptyString) with false
    by by destruct pre.
  destruct (starts_with_slash _).
  - exists ("/" +:+ pre). by rewrite append_assoc.
  - by exists pre.
Qed.

Lemma posix_join_index (a : string) :
  ∃ pre, posix_join a "index.json" = pre +:+ "index.json".
Proof.
  unfold posix_join. destruct (String.eqb a EmptyString).
  - by exists EmptyString.
  - cbn [String.eqb]. apply posix_normalize_index.
Qed.

(** On POSIX the file the command takes for the report always has a name in
    [.json], whatever the argument and the file system: this is the file it
    probes, sniffs, loads and hands to [studyCrawl]. *)
Theorem resolved_report_ends_in_json (env : Env) (report : string) :
  endsWith (edReport_of (P:=posix) env report) ".json" = true.
Proof.
  unfold edReport_of. destruct (endsWith report ".json") eqn:Hj; [done|].
  cbn [path_join posix].
  destruct (posix_join_index
              (if fs_access env (posix_join report "ed")
               then posix_join report "ed" else report)) as [pre ->].
  change "index.json" with ("index" +:+ ".json").
  rewrite <-append_assoc. apply endsWith_append.
Qed.

(** On POSIX the issue-filing script always ends up with a path in
    [index.json], and resolving a resolved path changes nothing. *)
Theorem target_index_idempotent (crawlResultsPath : string) :
  endsWith (target_index (P:=posix) crawlResultsPath) "index.json" = true ∧
  target_index (P:=posix) (target_index (P:=posix) crawlResultsPath)
    = target_index (P:=posix) crawlResultsPath.
Proof.
  assert (endsWith (target_index (P:=posix) crawlResultsPath) "index.json" = true)
    as Hends.
  { unfold target_index.
    destruct (endsWith crawlResultsPath "index.json") eqn:Hi; [done|].
    cbn [path_join posix].
    destruct (posix_join_index crawlResultsPath) as [pre ->].
    apply endsWith_append. }
  split; [done|]. unfold target_index at 1. by rewrite Hends.
Qed.

(** A [config.json] that holds an object decides alone: without a truthy
    [GH_TOKEN] in it the script exits with code 1 after one message, even
    when the environment variable is set.  The environment variable counts
    only when [config.json] cannot be loaded, and then it must not be
    empty. *)
Theorem config_file_shadows_environment (props : list (string * JSValue))
    (env_token : option string) :
  check_token (Some (JObject props)) env_token =
    (if truthy (assoc "GH_TOKEN" props) then ([], Val tt)
     else ([EvConsoleError MSG_TOKEN], Halted (Exit 1))) ∧
  check_token None env_token =
    (if str_truthy env_token then ([], Val tt)
     else ([EvConsoleError MSG_TOKEN], Halted (Exit 1))).
Proof.
  unfold check_token, GH_TOKEN. cbn [get_field]. split.
  - by destruct (truthy (assoc "GH_TOKEN" props)).
  - destruct env_token as [s|]; cbn [truthy str_truthy]; [|done].
    by destruct (String.eqb s EmptyString).
Qed.
